(** * Session-aware streaming chat core of [app.py]

    A shallow embedding of the session store ([session_histories] and the
    operations that mutate it under [history_lock]) and of the generator
    [generate_chat_stream_with_session], followed by the properties of the
    specification that concern them.

    Modelling choices.
    - A Python [str] is a [string]; each character stands for one code point
      below 256.
    - The stored messages are Python dicts, which are mutable objects held by
      reference: the store keeps a heap of dict objects and every history is a
      list of references into it.  [list(...)] copies the list of references,
      not the dicts, so the copy made by the generator aliases the stored
      dicts.
    - The payload fields carry the types of the wire shape ([session_id],
      [prompt], [system_prompt] and [model_id] are text, [temperature] is a
      number, an [int] or a [float] as the JSON parser gives it); an absent
      key is [None].  A field of another JSON type is outside the model.
    - [float(...)] of the temperature runs before the checks and outside
      the [try]: when it raises, the generator raises and yields nothing.
    - The Groq collaborator is a parameter: for a model, a message list and a
      temperature it gives the chunks it streams and how the stream ends.
    - [history_lock] is a [threading.Lock], which is not reentrant: a thread
      that acquires it while it is held waits until it is released.  The
      model runs one request at a time, so a block that acquires the lock
      while the request itself holds it never returns; a computation that
      never returns is [None]. *)

From Stdlib Require Import Ascii QArith_base.
From stdpp Require Import gmap strings list fin_maps.

(** ** Python strings *)

Module PyStr.

(** [str.isspace] on the code points below 256. *)
Definition is_space (c : ascii) : bool :=
  let n := nat_of_ascii c in
  ((9 <=? n) && (n <=? 13)) || ((28 <=? n) && (n <=? 32))
  || (n =? 133) || (n =? 160).

Fixpoint lstrip (s : string) : string :=
  match s with
  | EmptyString => EmptyString
  | String c s' => if is_space c then lstrip s' else s
  end.

Fixpoint rstrip (s : string) : string :=
  match s with
  | EmptyString => EmptyString
  | String c s' =>
      match rstrip s' with
      | EmptyString => if is_space c then EmptyString else String c EmptyString
      | r => String c r
      end
  end.

(** [s.strip()] *)
Definition strip (s : string) : string := rstrip (lstrip s).

(** Truth value of a [str]: only the empty string is falsy. *)
Definition truthy (s : string) : bool :=
  match s with
  | EmptyString => false
  | String _ _ => true
  end.

(** Truth value of an optional [str]: [None] and [""] are falsy. *)
Definition truthy_opt (o : option string) : bool :=
  match o with
  | None => false
  | Some s => truthy s
  end.

Fixpoint chars (s : string) : list ascii :=
  match s with
  | EmptyString => []
  | String c s' => c :: chars s'
  end.

Fixpoint concat (l : list string) : string :=
  match l with
  | [] => EmptyString
  | s :: l' => s +:+ concat l'
  end.

End PyStr.

(** ** Data model *)

Inductive MessageRole := SYSTEM | USER | ASSISTANT.

Global Instance MessageRole_eq_dec : EqDecision MessageRole.
Proof. solve_decision. Defined.

(** A stored message: the dict [{"role": ..., "content": ...}]. *)
Record msg_dict := { d_role : MessageRole; d_content : string }.

Global Instance msg_dict_eq_dec : EqDecision msg_dict.
Proof. solve_decision. Defined.

Global Instance msg_dict_inhabited : Inhabited msg_dict :=
  populate {| d_role := USER; d_content := "" |}.

(** A message handed to the collaborator: [ChatMessage(role=..., content=...)]. *)
Record ChatMessage := { role : MessageRole; content : string }.

Global Instance ChatMessage_eq_dec : EqDecision ChatMessage.
Proof. solve_decision. Defined.

(** References to dict objects. *)
Abbreviation loc := nat (only parsing).

(** The dict objects and [session_histories]. *)
Record store := {
  heap : gmap nat msg_dict;
  session_histories : gmap string (list nat)
}.

(** The module globals: the store and whether [history_lock] is held. *)
Record state := {
  st_store : store;
  history_lock : bool
}.

Definition empty_store : store := {| heap := ∅; session_histories := ∅ |}.
Definition initial_state : state := {| st_store := empty_store; history_lock := false |}.

Definition deref (st : store) (l : loc) : msg_dict := heap st !!! l.

(** A new dict object. *)
Definition alloc (d : msg_dict) (st : store) : loc * store :=
  let l := fresh (dom (heap st)) in
  (l, {| heap := <[l := d]> (heap st);
         session_histories := session_histories st |}).

Global Arguments alloc : simpl never.

(** [d["content"] = c] on the dict object at [l]. *)
Definition set_content (l : loc) (c : string) (st : store) : store :=
  {| heap := <[l := {| d_role := d_role (deref st l); d_content := c |}]> (heap st);
     session_histories := session_histories st |}.

(** [session_histories[session_id] = h] *)
Definition set_history (session_id : string) (h : list loc) (st : store) : store :=
  {| heap := heap st;
     session_histories := <[session_id := h]> (session_histories st) |}.

(** [session_histories.get(session_id, [])], as references. *)
Definition history_refs (st : store) (session_id : string) : list loc :=
  default [] (session_histories st !! session_id).

(** The transcript of a session as values: every reference followed. *)
Definition history (st : store) (session_id : string) : list msg_dict :=
  deref st <$> history_refs st session_id.

(** [session_id in session_histories] *)
Definition known (st : store) (session_id : string) : bool :=
  bool_decide (is_Some (session_histories st !! session_id)).

(** ** Computations on the globals

    [None] is a computation that waits for [history_lock] for ever. *)

Definition M (A : Type) : Type := state -> option (A * state).

Definition ret {A} (a : A) : M A := fun s => Some (a, s).

Definition bind {A B} (m : M A) (k : A -> M B) : M B :=
  fun s =>
    match m s with
    | None => None
    | Some (a, s') => k a s'
    end.

Declare Scope m_scope.
Delimit Scope m_scope with M.
Notation "x <- m ;; k" := (bind m (fun x => k))
  (at level 100, m at next level, right associativity) : m_scope.
Notation "m ;; k" := (bind m (fun _ => k))
  (at level 100, right associativity) : m_scope.
Local Open Scope m_scope.

Definition get_store : M store := fun s => Some (st_store s, s).

Definition modify_store (f : store -> store) : M unit :=
  fun s => Some (tt, {| st_store := f (st_store s); history_lock := history_lock s |}).

(** [history_lock.acquire()] *)
Definition acquire : M unit :=
  fun s =>
    if history_lock s then None
    else Some (tt, {| st_store := st_store s; history_lock := true |}).

(** [history_lock.release()] *)
Definition release : M unit :=
  fun s => Some (tt, {| st_store := st_store s; history_lock := false |}).

(** [with history_lock: body] *)
Definition with_history_lock {A} (body : M A) : M A :=
  acquire ;; r <- body ;; release ;; ret r.

(** ** Session store operations *)

Definition initialize_session_history (session_id : string) : M (list loc) :=
  with_history_lock (
    st <- get_store ;;
    (if negb (known st session_id)
     then modify_store (set_history session_id [])
     else ret tt) ;;
    st' <- get_store ;;
    ret (history_refs st' session_id)).

Record json_response := {
  status : string;
  message : option string;
  http_code : nat
}.

(** [/create-session]; [uuid] is the value [str(uuid4())] took. *)
Definition create_session_route (uuid : string) : M (json_response * string) :=
  initialize_session_history uuid ;;
  ret ({| status := "success"; message := None; http_code := 200 |}, uuid).

(** [/clear-backend-history]; the argument is [data.get('session_id')]. *)
Definition clear_backend_history_route (session_id : option string)
  : M json_response :=
  if negb (PyStr.truthy_opt session_id) then
    ret {| status := "error"; message := Some "session_id is required";
           http_code := 400 |}
  else
    let session_id := default "" session_id in
    message <- with_history_lock (
      st <- get_store ;;
      if known st session_id then
        modify_store (set_history session_id []) ;;
        ret "Backend chat history cleared for this session."
      else
        initialize_session_history session_id ;;
        ret "Backend session history was not found (or was new) and is now initialized empty.") ;;
    ret {| status := "success"; message := Some message; http_code := 200 |}.

(** ** The chat request *)

(** A Python [float], a double, by the number it stands for. *)
Inductive double :=
  | Finite (q : Q)
  | Infinite (negative : bool)
  | NaN.

(** A number of the JSON body once parsed: an [int] or a [float]. *)
Inductive number :=
  | PyInt (z : Z)
  | PyFloat (f : double).

(** The exceptions the generator lets out. *)
Inductive exception :=
  | OverflowError.

(** A value, or the exception raised instead. *)
Inductive result (A : Type) :=
  | Ok (a : A)
  | Raise (e : exception).

Global Arguments Ok {A} a.
Global Arguments Raise {A} e.

(** The double nearest to an [int], ties to the even mantissa of 53 bits, as
    the integer it stands for; [None] when that double would be 2^1024 or
    more in size. *)
Definition long_as_double (z : Z) : option Z :=
  let a := Z.abs z in
  let bits := if (a =? 0)%Z then 0%Z else (Z.log2 a + 1)%Z in
  if (bits <=? 53)%Z then Some z
  else
    let shift := (bits - 53)%Z in
    let m := Z.shiftr a shift in
    let rest := (a mod 2 ^ shift)%Z in
    let half := (2 ^ (shift - 1))%Z in
    let m' := if (half <? rest)%Z || ((rest =? half)%Z && Z.odd m)
              then (m + 1)%Z else m in
    let r := (m' * 2 ^ shift)%Z in
    if (2 ^ 1024 <=? r)%Z then None
    else Some (if (z <? 0)%Z then (- r)%Z else r).

(** [float(x)] for a number: a [float] as it is, an [int] rounded, or
    [OverflowError: int too large to convert to float]. *)
Definition float (x : number) : result double :=
  match x with
  | PyFloat f => Ok f
  | PyInt z =>
      match long_as_double z with
      | Some r => Ok (Finite (inject_Z r))
      | None => Raise OverflowError
      end
  end.

(** The JSON body of [/chat]; [None] is an absent key. *)
Record Payload := {
  p_session_id : option string;
  p_prompt : option string;
  p_system_prompt : option string;
  p_temperature : option number;
  p_model_id : option string
}.

(** How the iteration over [stream_resp] ends. *)
Inductive stream_end :=
  | Exhausted
  | Raised (e : string).

(** What [llm.stream_chat] yields: the [delta] of every chunk received, in
    order ([None] for a chunk without text), and the end of the stream.  A
    call that raises before the first chunk is a stream with no chunk that
    ends in [Raised]. *)
Record llm_stream := {
  chunks : list (option string);
  ending : stream_end
}.

(** The external collaborator.  [LlamaGroq model api_key] is [Some e] when the
    constructor raises [e]. *)
Record Groq := {
  LlamaGroq : string -> string -> option string;
  stream_chat : string -> list ChatMessage -> double -> llm_stream
}.

(** The events of the stream; on the wire each one is [data: <json>] followed
    by an empty line. *)
Inductive event :=
  | TextChunk (text_chunk : string)
  | FullResponse (full_response : string)
  | Error (error : string).

Global Instance event_eq_dec : EqDecision event.
Proof. solve_decision. Defined.

Definition is_final (e : event) : bool :=
  match e with
  | TextChunk _ => false
  | FullResponse _ => true
  | Error _ => true
  end.

(** One run of the generator: the events it yields, the call it makes to the
    collaborator, the globals when it ends ([None] when it never does), and
    the exception it ends with when it raises. *)
Record run := {
  events : list event;
  llm_call : option (string * list ChatMessage * double);
  final : option state;
  raised : option exception
}.

Definition system_message (system_prompt_text : string) : ChatMessage :=
  {| role := SYSTEM; content := system_prompt_text |}.

(** Lines 100-106: the system prompt against the copied history.  The copy
    holds the stored dicts themselves, so the assignment to [content] writes
    to the store. *)
Definition handle_system_prompt (system_prompt_text : string)
    (current_history_dicts : list loc) (st : store) : list ChatMessage * store :=
  if PyStr.truthy system_prompt_text then
    match current_history_dicts with
    | [] => ([system_message system_prompt_text], st)
    | l0 :: _ =>
        if bool_decide (d_role (deref st l0) ≠ SYSTEM) then
          ([system_message system_prompt_text], st)
        else if bool_decide (d_role (deref st l0) = SYSTEM)
                && bool_decide (d_content (deref st l0) ≠ system_prompt_text) then
          ([system_message system_prompt_text], set_content l0 system_prompt_text st)
        else ([], st)
    end
  else ([], st).

(** [messages_for_llm and messages_for_llm[0].role == MessageRole.SYSTEM] *)
Definition starts_with_system (messages_for_llm : list ChatMessage) : bool :=
  match messages_for_llm with
  | [] => false
  | m :: _ => bool_decide (role m = SYSTEM)
  end.

Definition to_chat_message (d : msg_dict) : ChatMessage :=
  {| role := d_role d; content := d_content d |}.

(** Lines 110-114: one iteration of the conversion loop. *)
Definition convert_step (st : store) (messages_for_llm : list ChatMessage)
    (l : loc) : list ChatMessage :=
  let msg_dict := deref st l in
  if bool_decide (d_role msg_dict = SYSTEM) && starts_with_system messages_for_llm
  then messages_for_llm
  else messages_for_llm ++ [to_chat_message msg_dict].

(** Lines 95-114, the body of the first block under [history_lock]. *)
Definition assemble_messages (session_id system_prompt_text : string) (st : store)
  : list ChatMessage * store :=
  let current_history_dicts := history_refs st session_id in
  let '(messages_for_llm, st1) :=
    handle_system_prompt system_prompt_text current_history_dicts st in
  (foldl (convert_step st1) messages_for_llm current_history_dicts, st1).

Definition lift_store {A} (f : store -> A * store) : M A :=
  fun s =>
    let '(a, st) := f (st_store s) in
    Some (a, {| st_store := st; history_lock := history_lock s |}).

(** Lines 93-114. *)
Definition assemble_block (session_id system_prompt_text : string)
  : M (list ChatMessage) :=
  with_history_lock (lift_store (assemble_messages session_id system_prompt_text)).

(** Lines 124-129: the loop over the stream, with its accumulator. *)
Fixpoint consume (deltas : list (option string)) (full_response_content : string)
  : list event * string :=
  match deltas with
  | [] => ([], full_response_content)
  | delta_content :: rest =>
      if PyStr.truthy_opt delta_content then
        let d := default "" delta_content in
        let '(evs, full) := consume rest (full_response_content +:+ d) in
        (TextChunk d :: evs, full)
      else consume rest full_response_content
  end.

(** [session_histories[session_id].append(d)] for a new dict [d]. *)
Definition append_message (session_id : string) (d : msg_dict) (st : store) : store :=
  let '(l, st1) := alloc d st in
  set_history session_id (history_refs st1 session_id ++ [l]) st1.

(** Lines 138-142. *)
Definition update_system_prompt (session_id system_prompt_text : string)
    (st : store) : store :=
  if PyStr.truthy system_prompt_text then
    match history_refs st session_id with
    | [] =>
        let '(l, st1) :=
          alloc {| d_role := SYSTEM; d_content := system_prompt_text |} st in
        set_history session_id [l] st1
    | l0 :: rest =>
        if bool_decide (d_role (deref st l0) ≠ SYSTEM) then
          let '(l, st1) :=
            alloc {| d_role := SYSTEM; d_content := system_prompt_text |} st in
          set_history session_id (l :: l0 :: rest) st1
        else if bool_decide (d_role (deref st l0) = SYSTEM)
                && bool_decide (d_content (deref st l0) ≠ system_prompt_text) then
          set_content l0 system_prompt_text st
        else st
    end
  else st.

(** Lines 132-146, the second block under [history_lock]. *)
Definition commit_exchange (session_id system_prompt_text user_prompt_text
    full_response_content : string) : M unit :=
  with_history_lock (
    st <- get_store ;;
    (if negb (known st session_id)
     then initialize_session_history session_id ;; ret tt
     else ret tt) ;;
    modify_store (update_system_prompt session_id system_prompt_text) ;;
    modify_store (append_message session_id
      {| d_role := USER; d_content := user_prompt_text |}) ;;
    modify_store (append_message session_id
      {| d_role := ASSISTANT; d_content := full_response_content |})).

(** The [float] that the literal [0.7] is. *)
Definition default_temperature : double :=
  Finite (Qmake 3152519739159347 4503599627370496).
Definition default_model_id : string := "llama3-8b-8192".

Definition error_run (msg : string) (s : state) : run :=
  {| events := [Error msg]; llm_call := None; final := Some s; raised := None |}.

(** The generator raises before its first [yield]. *)
Definition raising_run (e : exception) (s : state) : run :=
  {| events := []; llm_call := None; final := Some s; raised := Some e |}.

(** The generator waits for the lock for ever. *)
Definition blocked_run (evs : list event)
    (call : option (string * list ChatMessage * double)) : run :=
  {| events := evs; llm_call := call; final := None; raised := None |}.

(** [generate_chat_stream_with_session(payload)], consumed to its end;
    [GROQ_API_KEY] is [os.environ.get("GROQ_API_KEY")]. *)
Definition generate_chat_stream_with_session (GROQ_API_KEY : option string)
    (groq : Groq) (payload : Payload) (s : state) : run :=
  let session_id := p_session_id payload in
  let user_prompt_text := p_prompt payload in
  let system_prompt_text := PyStr.strip (default "" (p_system_prompt payload)) in
  match float (default (PyFloat default_temperature) (p_temperature payload)) with
  | Raise e => raising_run e s
  | Ok temperature =>
  let model_id := default default_model_id (p_model_id payload) in
  if negb (PyStr.truthy_opt session_id) then
    error_run "session_id is required for backend history" s
  else if negb (PyStr.truthy_opt user_prompt_text) then
    error_run "Prompt is required" s
  else if negb (PyStr.truthy_opt GROQ_API_KEY) then
    error_run "GROQ_API_KEY not configured on server." s
  else
    let session_id := default "" session_id in
    let user_prompt_text := default "" user_prompt_text in
    match LlamaGroq groq model_id (default "" GROQ_API_KEY) with
    | Some e => error_run ("LLM Error: " +:+ e) s
    | None =>
        match assemble_block session_id system_prompt_text s with
        | None => blocked_run [] None
        | Some (messages_for_llm, s1) =>
            let messages_for_llm :=
              messages_for_llm ++ [{| role := USER; content := user_prompt_text |}] in
            let stream_resp :=
              stream_chat groq model_id messages_for_llm temperature in
            let '(chunk_events, full_response_content) :=
              consume (chunks stream_resp) "" in
            let call := Some (model_id, messages_for_llm, temperature) in
            match ending stream_resp with
            | Raised e =>
                {| events := chunk_events ++ [Error ("LLM Error: " +:+ e)];
                   llm_call := call;
                   final := Some s1;
                   raised := None |}
            | Exhausted =>
                match commit_exchange session_id system_prompt_text
                        user_prompt_text full_response_content s1 with
                | None => blocked_run chunk_events call
                | Some (_, s2) =>
                    {| events := chunk_events ++ [FullResponse full_response_content];
                       llm_call := call;
                       final := Some s2;
                       raised := None |}
                end
            end
        end
    end
  end.

(** [/chat]: the session is initialized, then the response streams the
    generator. *)
Definition chat_route_post (GROQ_API_KEY : option string) (groq : Groq)
    (payload : Payload) (s : state) : run :=
  let session_id := p_session_id payload in
  if PyStr.truthy_opt session_id then
    match initialize_session_history (default "" session_id) s with
    | None => blocked_run [] None
    | Some (_, s1) => generate_chat_stream_with_session GROQ_API_KEY groq payload s1
    end
  else generate_chat_stream_with_session GROQ_API_KEY groq payload s.

(** ** The wire format of an event

    Every [yield] of the generator is [f"data: {json.dumps(d)}"] followed by
    two newlines, for a dict [d] of a text and the [is_final] flag.
    [json.dumps] escapes with [ensure_ascii], its default. *)

Module Json.

Definition quote : ascii := ascii_of_nat 34.
Definition backslash : ascii := ascii_of_nat 92.
Definition newline : ascii := ascii_of_nat 10.

(** One digit of the format [04x]. *)
Definition hex_digit (n : nat) : ascii :=
  if n <? 10 then ascii_of_nat (48 + n) else ascii_of_nat (87 + n).

(** ['\\u{0:04x}'.format(n)], for a code point below 256. *)
Definition u_escape (n : nat) : string :=
  String backslash (String "u" (String "0" (String "0"
    (String (hex_digit (n / 16)) (String (hex_digit (n mod 16)) EmptyString))))).

(** The replacement of one character: the entries of [ESCAPE_DCT], the
    characters from the space to the tilde as they are, and the [u] escape
    for the others. *)
Definition escape_char (c : ascii) : string :=
  let n := nat_of_ascii c in
  if n =? 92 then String backslash (String backslash EmptyString)
  else if n =? 34 then String backslash (String quote EmptyString)
  else if n =? 8 then String backslash "b"
  else if n =? 12 then String backslash "f"
  else if n =? 10 then String backslash "n"
  else if n =? 13 then String backslash "r"
  else if n =? 9 then String backslash "t"
  else if (32 <=? n) && (n <=? 126) then String c EmptyString
  else u_escape n.

Fixpoint escape (s : string) : string :=
  match s with
  | EmptyString => EmptyString
  | String c s' => escape_char c +:+ escape s'
  end.

(** [json.dumps(s)] for a [str]. *)
Definition dumps_str (s : string) : string :=
  String quote (escape s +:+ String quote EmptyString).

(** [json.dumps({key: text, 'is_final': flag})] *)
Definition dumps_dict (key text : string) (flag : bool) : string :=
  "{" +:+ dumps_str key +:+ ": " +:+ dumps_str text +:+ ", "
  +:+ dumps_str "is_final" +:+ ": " +:+ (if flag then "true" else "false") +:+ "}".

End Json.

(** The dict of an event, serialized. *)
Definition event_json (e : event) : string :=
  match e with
  | TextChunk text_chunk => Json.dumps_dict "text_chunk" text_chunk false
  | FullResponse full_response => Json.dumps_dict "full_response" full_response true
  | Error error => Json.dumps_dict "error" error true
  end.

(** The string the generator yields for an event. *)
Definition wire (e : event) : string :=
  "data: " +:+ event_json e
  +:+ String Json.newline (String Json.newline EmptyString).

(** * Notions used by the properties *)

(** ** The store between the blocks *)

(** The store after [initialize_session_history]. *)
Definition initialized (session_id : string) (st : store) : store :=
  if known st session_id then st else set_history session_id [] st.

(** The store after the second block, for a session that is known. *)
Definition committed (session_id system_prompt_text user_prompt_text
    full_response_content : string) (st : store) : store :=
  append_message session_id
    {| d_role := ASSISTANT; d_content := full_response_content |}
    (append_message session_id
      {| d_role := USER; d_content := user_prompt_text |}
      (update_system_prompt session_id system_prompt_text st)).

(** The globals with the lock free. *)
Definition unlocked (st : store) : state :=
  {| st_store := st; history_lock := false |}.

(** ** Concrete requests *)

Module Scenario.

(** A collaborator whose stream is fixed. *)
Definition stub (deltas : list (option string)) (e : stream_end) : Groq :=
  {| LlamaGroq := fun _ _ => None;
     stream_chat := fun _ _ _ => {| chunks := deltas; ending := e |} |}.

Definition request (session_id prompt system_prompt : option string) : Payload :=
  {| p_session_id := session_id;
     p_prompt := prompt;
     p_system_prompt := system_prompt;
     p_temperature := None;
     p_model_id := None |}.

Definition api_key : option string := Some "gsk".

(** The same request with the field [temperature] set. *)
Definition with_temperature (payload : Payload) (temperature : number) : Payload :=
  {| p_session_id := p_session_id payload;
     p_prompt := p_prompt payload;
     p_system_prompt := p_system_prompt payload;
     p_temperature := Some temperature;
     p_model_id := p_model_id payload |}.

(** [/create-session] giving the id [s1], then a first exchange under the
    system prompt [A]. *)
Definition first_turn : run :=
  chat_route_post api_key (stub [Some "Hel"; Some "lo"] Exhausted)
    (request (Some "s1") (Some "hi") (Some "A")) initial_state.

Definition after_first_turn : state := default initial_state (final first_turn).

(** A second request changes the system prompt to [B]; the stream raises
    after one chunk. *)
Definition failed_turn : run :=
  chat_route_post api_key (stub [Some "par"] (Raised "boom"))
    (request (Some "s1") (Some "again") (Some "B")) after_first_turn.

Definition transcript (r : run) (session_id : string) : option (list msg_dict) :=
  (fun s => history (st_store s) session_id) <$> final r.

End Scenario.

(** ** Invariants *)

(** Every reference held by a history points to a dict object. *)
Definition wf (st : store) : Prop :=
  map_Forall (fun _ refs => Forall (fun l => is_Some (heap st !! l)) refs)
    (session_histories st).

(** At most one system message, and only as the first element. *)
Definition system_only_first (t : list msg_dict) : Prop :=
  Forall (fun d => d_role d <> SYSTEM) (tail t).

(** ** The operations on the values of a transcript *)

(** The system message a request upserts, on the values of a transcript: a
    system message is put in front when the transcript has none at index 0;
    one at index 0 ends with the content of the prompt, whether it was
    overwritten or held it already. *)
Definition upsert_system (system_prompt_text : string) (t : list msg_dict)
  : list msg_dict :=
  if PyStr.truthy system_prompt_text then
    match t with
    | [] => [{| d_role := SYSTEM; d_content := system_prompt_text |}]
    | d :: rest =>
        if bool_decide (d_role d <> SYSTEM)
        then {| d_role := SYSTEM; d_content := system_prompt_text |} :: d :: rest
        else {| d_role := SYSTEM; d_content := system_prompt_text |} :: rest
    end
  else t.

(** What the write through the copied history does to the stored values. *)
Definition overwritten_system (system_prompt_text : string) (t : list msg_dict)
  : list msg_dict :=
  if PyStr.truthy system_prompt_text then
    match t with
    | [] => []
    | d :: rest =>
        if bool_decide (d_role d <> SYSTEM) then d :: rest
        else {| d_role := SYSTEM; d_content := system_prompt_text |} :: rest
    end
  else t.

(** The list sent to the collaborator, before the user message, on the values
    of a transcript. *)
Definition assembled (system_prompt_text : string) (t : list msg_dict)
  : list ChatMessage :=
  if PyStr.truthy system_prompt_text then
    system_message system_prompt_text ::
      (to_chat_message <$>
        match t with
        | [] => []
        | d :: rest => if bool_decide (d_role d <> SYSTEM) then t else rest
        end)
  else to_chat_message <$> t.

(** ** Reachable states *)

(** The invariant of the store. *)
Definition inv (st : store) : Prop :=
  wf st /\ forall sid, system_only_first (history st sid).

(** The blocks that run under [history_lock]; requests of different threads
    interleave at this grain. *)
Inductive block :=
  | Initialize (session_id : string)
  | Clear (session_id : option string)
  | Assemble (session_id system_prompt_text : string)
  | Commit (session_id system_prompt_text user_prompt_text
            full_response_content : string).

Definition run_block (b : block) : M unit :=
  match b with
  | Initialize session_id => initialize_session_history session_id ;; ret tt
  | Clear session_id => clear_backend_history_route session_id ;; ret tt
  | Assemble session_id system_prompt_text =>
      assemble_block session_id system_prompt_text ;; ret tt
  | Commit session_id system_prompt_text user_prompt_text full_response_content =>
      commit_exchange session_id system_prompt_text user_prompt_text
        full_response_content
  end.

(** The states the globals take, from an empty store, after any sequence of
    blocks that return. *)
Inductive reachable : state -> Prop :=
  | reachable_initial : reachable initial_state
  | reachable_block b s s' :
      reachable s -> run_block b s = Some (tt, s') -> reachable s'.

(** ** One request *)

(** The text of a chunk: [None] carries none. *)
Definition delta_text (delta : option string) : string := default "" delta.

(** The deltas that pass the test [if delta_content:]. *)
Definition emitted (deltas : list (option string)) : list string :=
  filter (fun d => d <> "") (delta_text <$> deltas).

(** [session_id] and [user_prompt_text] once the checks have passed. *)
Definition session_of (payload : Payload) : string :=
  default "" (p_session_id payload).

Definition prompt_of (payload : Payload) : string :=
  default "" (p_prompt payload).

(** [system_prompt_text] *)
Definition system_prompt_of (payload : Payload) : string :=
  PyStr.strip (default "" (p_system_prompt payload)).

(** [float(...)] of the temperature returns. *)
Definition converts (payload : Payload) : bool :=
  match float (default (PyFloat default_temperature) (p_temperature payload)) with
  | Ok _ => true
  | Raise _ => false
  end.

(** [temperature], when [float(...)] returns. *)
Definition temperature_of (payload : Payload) : double :=
  match float (default (PyFloat default_temperature) (p_temperature payload)) with
  | Ok temperature => temperature
  | Raise _ => default_temperature
  end.

Definition model_of (payload : Payload) : string :=
  default default_model_id (p_model_id payload).

(** The temperature converts, the request passes the three checks and the
    client is constructed. *)
Definition accepted (GROQ_API_KEY : option string) (groq : Groq)
    (payload : Payload) : bool :=
  converts payload
  && PyStr.truthy_opt (p_session_id payload)
  && PyStr.truthy_opt (p_prompt payload)
  && PyStr.truthy_opt GROQ_API_KEY
  && bool_decide (LlamaGroq groq (model_of payload) (default "" GROQ_API_KEY) = None).

(** [messages_for_llm] as passed to [llm.stream_chat]. *)
Definition outgoing (payload : Payload) (st : store) : list ChatMessage :=
  (assemble_messages (session_of payload) (system_prompt_of payload) st).1
  ++ [{| role := USER; content := prompt_of payload |}].

(** [stream_resp] *)
Definition stream_of (groq : Groq) (payload : Payload) (st : store) : llm_stream :=
  stream_chat groq (model_of payload) (outgoing payload st) (temperature_of payload).

(** The store when the stream starts. *)
Definition before_stream (payload : Payload) (st : store) : store :=
  (assemble_messages (session_of payload) (system_prompt_of payload) st).2.

(** The stream the collaborator gave to a run. *)
Definition response_of (groq : Groq) (r : run) : option llm_stream :=
  match llm_call r with
  | Some (model_id, messages_for_llm, temperature) =>
      Some (stream_chat groq model_id messages_for_llm temperature)
  | None => None
  end.

(** The events with [is_final] set. *)
Definition final_events (evs : list event) : list event :=
  filter (fun e => is_final e = true) evs.

(** Every character is whitespace. *)
Definition all_space (s : string) : Prop :=
  Forall (fun c => PyStr.is_space c = true) (PyStr.chars s).

(** A system prompt that is absent, empty, or made of whitespace only. *)
Definition blank (system_prompt : option string) : Prop :=
  match system_prompt with
  | None => True
  | Some sp => all_space sp
  end.

(** The payload with another [system_prompt]. *)
Definition with_system_prompt (payload : Payload) (system_prompt : option string)
  : Payload :=
  {| p_session_id := p_session_id payload;
     p_prompt := p_prompt payload;
     p_system_prompt := system_prompt;
     p_temperature := p_temperature payload;
     p_model_id := p_model_id payload |}.

(** ** Reading a JSON string *)

(** The value of a hexadecimal digit in lower case. *)
Definition hex_value (c : ascii) : option nat :=
  let n := nat_of_ascii c in
  if (48 <=? n) && (n <=? 57) then Some (n - 48)
  else if (97 <=? n) && (n <=? 102) then Some (n - 87)
  else None.

(** The character a two-character escape stands for. *)
Definition simple_escape (e : ascii) : option ascii :=
  let n := nat_of_ascii e in
  if n =? 92 then Some Json.backslash
  else if n =? 34 then Some Json.quote
  else if n =? 98 then Some (ascii_of_nat 8)
  else if n =? 102 then Some (ascii_of_nat 12)
  else if n =? 110 then Some (ascii_of_nat 10)
  else if n =? 114 then Some (ascii_of_nat 13)
  else if n =? 116 then Some (ascii_of_nat 9)
  else None.

(** The text an escaped string stands for, as a reader of the stream
    recovers it. *)
Fixpoint unescape (s : string) : option string :=
  match s with
  | EmptyString => Some EmptyString
  | String c rest =>
      if Ascii.eqb c Json.backslash then
        match rest with
        | EmptyString => None
        | String e rest1 =>
            if Ascii.eqb e "u" then
              match rest1 with
              | String h1 (String h2 (String h3 (String h4 rest2))) =>
                  match hex_value h1, hex_value h2, hex_value h3, hex_value h4,
                        unescape rest2 with
                  | Some a, Some b, Some c', Some d, Some r =>
                      Some (String (ascii_of_nat (((a * 16 + b) * 16 + c') * 16 + d)) r)
                  | _, _, _, _, _ => None
                  end
              | _ => None
              end
            else
              match simple_escape e, unescape rest1 with
              | Some c', Some r => Some (String c' r)
              | _, _ => None
              end
        end
      else
        match unescape rest with
        | Some r => Some (String c r)
        | None => None
        end
  end.

(** A character from the space to the tilde. *)
Definition printable (c : ascii) : bool :=
  (32 <=? nat_of_ascii c) && (nat_of_ascii c <=? 126).

(** ** Shape of a transcript *)

(** Complete exchanges: a user message then an assistant message, repeated. *)
Inductive exchanges : list msg_dict -> Prop :=
  | exchanges_nil : exchanges []
  | exchanges_cons u a t :
      exchanges t ->
      exchanges ({| d_role := USER; d_content := u |}
                 :: {| d_role := ASSISTANT; d_content := a |} :: t).

(** Complete exchanges, after a system message with some content or none. *)
Definition shaped (t : list msg_dict) : Prop :=
  exchanges t
  \/ exists c t', t = {| d_role := SYSTEM; d_content := c |} :: t'
                  /\ c <> "" /\ exchanges t'.

(** No dict object is held by the histories of two sessions. *)
Definition isolated (st : store) : Prop :=
  forall sid sid' l,
    sid <> sid' -> l ∈ history_refs st sid -> l ∉ history_refs st sid'.

(** The session a block works on. *)
Definition block_session (b : block) : string :=
  match b with
  | Initialize session_id => session_id
  | Clear session_id => default "" session_id
  | Assemble session_id _ => session_id
  | Commit session_id _ _ _ => session_id
  end.

(** * Properties *)

(** The test [d_role d <> SYSTEM] on a system message. *)
Ltac head_is_system :=
  rewrite bool_decide_eq_false_2 by (intros Hn; apply Hn; reflexivity).

(** ** The blocks when the lock is free *)

Lemma unlocked_eq s : history_lock s = false -> s = unlocked (st_store s).
Proof. destruct s as [st b]; simpl; intros ->; reflexivity. Qed.

Lemma truthy_nonempty s : PyStr.truthy s = true <-> s <> "".
Proof. destruct s; simpl; split; congruence. Qed.

Lemma known_false st sid :
  known st sid = false <-> session_histories st !! sid = None.
Proof.
  unfold known. rewrite bool_decide_eq_false, eq_None_not_Some. reflexivity.
Qed.

Lemma initialize_session_history_unlocked sid st :
  initialize_session_history sid (unlocked st)
  = Some (history_refs (initialized sid st) sid, unlocked (initialized sid st)).
Proof.
  unfold initialize_session_history, with_history_lock, bind, acquire, release,
    get_store, modify_store, ret, initialized, unlocked; simpl.
  destruct (known st sid); reflexivity.
Qed.

Lemma initialize_session_history_locked sid st :
  initialize_session_history sid {| st_store := st; history_lock := true |} = None.
Proof. reflexivity. Qed.

Lemma assemble_block_unlocked sid sp st :
  assemble_block sid sp (unlocked st)
  = Some ((assemble_messages sid sp st).1, unlocked (assemble_messages sid sp st).2).
Proof.
  unfold assemble_block, with_history_lock, bind, acquire, release, lift_store,
    ret, unlocked; simpl.
  destruct (assemble_messages sid sp st); reflexivity.
Qed.

Lemma commit_exchange_known sid sp up full st :
  known st sid = true ->
  commit_exchange sid sp up full (unlocked st)
  = Some (tt, unlocked (committed sid sp up full st)).
Proof.
  intros Hk.
  unfold commit_exchange, with_history_lock, bind, acquire, release,
    get_store, modify_store, ret, committed, unlocked; simpl.
  rewrite Hk; reflexivity.
Qed.

Lemma commit_exchange_unknown sid sp up full st :
  known st sid = false ->
  commit_exchange sid sp up full (unlocked st) = None.
Proof.
  intros Hk.
  unfold commit_exchange, with_history_lock, bind, acquire, get_store, unlocked;
    simpl.
  rewrite Hk; reflexivity.
Qed.

Lemma clear_known sid st :
  PyStr.truthy sid = true -> known st sid = true ->
  clear_backend_history_route (Some sid) (unlocked st)
  = Some ({| status := "success";
             message := Some "Backend chat history cleared for this session.";
             http_code := 200 |},
          unlocked (set_history sid [] st)).
Proof.
  intros Ht Hk.
  unfold clear_backend_history_route, with_history_lock, bind, acquire, release,
    get_store, modify_store, ret, unlocked; simpl.
  rewrite Ht; simpl. rewrite Hk; reflexivity.
Qed.

Lemma clear_unknown sid st :
  PyStr.truthy sid = true -> known st sid = false ->
  clear_backend_history_route (Some sid) (unlocked st) = None.
Proof.
  intros Ht Hk.
  unfold clear_backend_history_route, with_history_lock, bind, acquire,
    get_store, unlocked; simpl.
  rewrite Ht; simpl. rewrite Hk; reflexivity.
Qed.

(** ** Two requests, evaluated *)

(** C1.  The stream of a request raises after a partial delta, and the stored
    transcript differs from the one before the request: the system message,
    which had content [A], now has content [B].  The request ends with one
    terminal error event and no user or assistant message is stored. *)
Theorem failed_stream_rewrites_stored_system_message :
  history (st_store Scenario.after_first_turn) "s1"
  = [ {| d_role := SYSTEM; d_content := "A" |};
      {| d_role := USER; d_content := "hi" |};
      {| d_role := ASSISTANT; d_content := "Hello" |} ]
  /\ events Scenario.failed_turn = [TextChunk "par"; Error "LLM Error: boom"]
  /\ Scenario.transcript Scenario.failed_turn "s1"
     = Some [ {| d_role := SYSTEM; d_content := "B" |};
              {| d_role := USER; d_content := "hi" |};
              {| d_role := ASSISTANT; d_content := "Hello" |} ]
  /\ Scenario.transcript Scenario.failed_turn "s1"
     <> Some (history (st_store Scenario.after_first_turn) "s1").
Proof.
  repeat split; try (vm_compute; reflexivity).
  vm_compute. discriminate.
Qed.

(** C8.  Clearing the history of a session id that the store does not know
    never returns: the route holds [history_lock] when it calls
    [initialize_session_history], which waits for the same lock.  No response
    is produced and no session entry is created. *)
Theorem clear_of_unknown_session_never_returns :
  known empty_store "s1" = false
  /\ clear_backend_history_route (Some "s1") initial_state = None.
Proof. split; vm_compute; reflexivity. Qed.

(** ** References and values *)

Lemma system_only_first_lookup t :
  system_only_first t <->
  (forall i d, t !! i = Some d -> d_role d = SYSTEM -> i = 0).
Proof.
  unfold system_only_first. split.
  - intros H i d Hi Hr. destruct i as [|i]; [reflexivity|].
    destruct t as [|d0 t]; [discriminate|]. simpl in *.
    rewrite Forall_lookup in H. exfalso. exact (H i d Hi Hr).
  - intros H. destruct t as [|d0 t]; simpl; [constructor|].
    apply Forall_lookup. intros i d Hi Hr.
    specialize (H (S i) d Hi Hr). discriminate.
Qed.

Lemma wf_refs st sid l :
  wf st -> l ∈ history_refs st sid -> is_Some (heap st !! l).
Proof.
  unfold wf, history_refs. intros Hwf Hl.
  destruct (session_histories st !! sid) as [refs|] eqn:E; simpl in Hl.
  - pose proof (map_Forall_lookup_1 _ _ _ _ Hwf E) as HF.
    rewrite Forall_forall in HF. exact (HF l Hl).
  - apply elem_of_nil in Hl. contradiction.
Qed.

Lemma wf_intro st :
  (forall sid l, l ∈ history_refs st sid -> is_Some (heap st !! l)) -> wf st.
Proof.
  intros H. unfold wf. apply map_Forall_lookup_2. intros sid refs E.
  apply Forall_forall. intros l Hl. apply (H sid).
  unfold history_refs. rewrite E. exact Hl.
Qed.

Lemma fresh_unallocated st : heap st !! fresh (dom (heap st)) = None.
Proof. apply not_elem_of_dom, is_fresh. Qed.

Lemma allocated_not_fresh st l :
  is_Some (heap st !! l) -> l <> fresh (dom (heap st)).
Proof.
  intros [d Hd] ->. rewrite fresh_unallocated in Hd. discriminate.
Qed.

Lemma history_refs_set_history st sid sid' h :
  history_refs (set_history sid h st) sid'
  = if decide (sid = sid') then h else history_refs st sid'.
Proof.
  unfold history_refs, set_history; simpl.
  rewrite lookup_insert. destruct (decide (sid = sid')); reflexivity.
Qed.

Lemma history_refs_set_content st l c sid :
  history_refs (set_content l c st) sid = history_refs st sid.
Proof. reflexivity. Qed.

Lemma history_refs_alloc st d sid :
  history_refs (alloc d st).2 sid = history_refs st sid.
Proof. reflexivity. Qed.

Lemma history_refs_alloc_snd st d l st1 sid :
  alloc d st = (l, st1) -> history_refs st1 sid = history_refs st sid.
Proof. intros E. injection E as _ <-. reflexivity. Qed.

Lemma deref_alloc_old st d l :
  is_Some (heap st !! l) -> deref (alloc d st).2 l = deref st l.
Proof.
  intros H. unfold deref, alloc; simpl.
  apply lookup_total_insert_ne. apply not_eq_sym, allocated_not_fresh, H.
Qed.

Lemma deref_alloc_new st d : deref (alloc d st).2 (alloc d st).1 = d.
Proof. unfold deref, alloc; simpl. apply lookup_total_insert_eq. Qed.

Lemma deref_set_content st l0 c l :
  deref (set_content l0 c st) l
  = if decide (l0 = l) then {| d_role := d_role (deref st l0); d_content := c |}
    else deref st l.
Proof. unfold deref, set_content; simpl. apply lookup_total_insert. Qed.

Lemma role_set_content st l0 c l :
  d_role (deref (set_content l0 c st) l) = d_role (deref st l).
Proof.
  rewrite deref_set_content. destruct (decide (l0 = l)) as [->|]; reflexivity.
Qed.

Lemma wf_set_history st sid h :
  wf st -> Forall (fun l => is_Some (heap st !! l)) h -> wf (set_history sid h st).
Proof.
  intros Hwf Hh. apply wf_intro. intros sid' l.
  rewrite history_refs_set_history. destruct (decide (sid = sid')).
  - rewrite Forall_forall in Hh. apply Hh.
  - apply (wf_refs st sid' l Hwf).
Qed.

Lemma wf_set_content st l0 c : wf st -> wf (set_content l0 c st).
Proof.
  intros Hwf. apply wf_intro. intros sid l Hl.
  rewrite history_refs_set_content in Hl.
  pose proof (wf_refs st sid l Hwf Hl) as Hs.
  unfold set_content; simpl. rewrite lookup_insert.
  destruct (decide (l0 = l)); [eexists; reflexivity | exact Hs].
Qed.

Lemma wf_alloc st d : wf st -> wf (alloc d st).2.
Proof.
  intros Hwf. apply wf_intro. intros sid l Hl.
  rewrite history_refs_alloc in Hl.
  pose proof (wf_refs st sid l Hwf Hl) as Hs.
  unfold alloc; simpl. rewrite lookup_insert.
  destruct (decide (fresh (dom (heap st)) = l)); [eexists; reflexivity | exact Hs].
Qed.

Lemma alloc_allocated st d : is_Some (heap (alloc d st).2 !! (alloc d st).1).
Proof. unfold alloc; simpl. rewrite lookup_insert_eq. eexists; reflexivity. Qed.

Lemma history_alloc st d sid : wf st -> history (alloc d st).2 sid = history st sid.
Proof.
  intros Hwf. unfold history. rewrite history_refs_alloc.
  apply list_fmap_ext. intros i l Hl.
  apply deref_alloc_old, (wf_refs st sid l Hwf).
  apply list_elem_of_lookup. exists i. exact Hl.
Qed.

Lemma history_set_history st sid h :
  history (set_history sid h st) sid = deref st <$> h.
Proof.
  unfold history. rewrite history_refs_set_history.
  destruct (decide (sid = sid)); [reflexivity | contradiction].
Qed.

Lemma history_set_history_ne st sid sid' h :
  sid <> sid' -> history (set_history sid h st) sid' = history st sid'.
Proof.
  intros Hne. unfold history. rewrite history_refs_set_history.
  destruct (decide (sid = sid')); [contradiction | reflexivity].
Qed.

Lemma history_append_message st sid d :
  wf st -> history (append_message sid d st) sid = history st sid ++ [d].
Proof.
  intros Hwf. unfold append_message.
  pose proof (history_alloc st d sid Hwf) as Ha.
  pose proof (deref_alloc_new st d) as Hn.
  destruct (alloc d st) as [l st1] eqn:E; simpl in *.
  rewrite history_set_history, fmap_app; simpl.
  unfold history in Ha. rewrite Ha, Hn. reflexivity.
Qed.

Lemma history_append_message_ne st sid sid' d :
  wf st -> sid <> sid' -> history (append_message sid d st) sid' = history st sid'.
Proof.
  intros Hwf Hne. unfold append_message.
  pose proof (history_alloc st d sid' Hwf) as Ha.
  destruct (alloc d st) as [l st1] eqn:E; simpl in *.
  rewrite history_set_history_ne by exact Hne. exact Ha.
Qed.

Lemma wf_append_message st sid d : wf st -> wf (append_message sid d st).
Proof.
  intros Hwf. unfold append_message.
  pose proof (wf_alloc st d Hwf) as Hw.
  pose proof (alloc_allocated st d) as Hn.
  pose proof (history_refs_alloc st d sid) as Hr.
  destruct (alloc d st) as [l st1] eqn:E; simpl in *.
  apply wf_set_history; [exact Hw|].
  apply Forall_app. split.
  - apply Forall_forall. intros l' Hl'. apply (wf_refs st1 sid l' Hw Hl').
  - repeat constructor. exact Hn.
Qed.

Lemma known_set_history st sid sid' h :
  known (set_history sid h st) sid' = known st sid' || bool_decide (sid = sid').
Proof.
  unfold known, set_history; simpl. rewrite lookup_insert.
  destruct (decide (sid = sid')) as [->|Hne].
  - rewrite (bool_decide_eq_true_2 (sid' = sid')) by reflexivity.
    rewrite orb_true_r. apply bool_decide_eq_true_2. eexists; reflexivity.
  - rewrite (bool_decide_eq_false_2 (sid = sid')) by exact Hne.
    rewrite orb_false_r. reflexivity.
Qed.

Lemma system_tail_unaliased st l0 (refs : list nat) :
  system_only_first (deref st <$> (l0 :: refs)) ->
  d_role (deref st l0) = SYSTEM -> l0 ∉ refs.
Proof.
  unfold system_only_first; simpl. intros HF Hr Hin.
  rewrite Forall_fmap, Forall_forall in HF. exact (HF l0 Hin Hr).
Qed.

Lemma fmap_deref_set_content st l0 c (refs : list nat) :
  l0 ∉ refs -> deref (set_content l0 c st) <$> refs = deref st <$> refs.
Proof.
  intros Hn. apply list_fmap_ext. intros i l Hl.
  rewrite deref_set_content. destruct (decide (l0 = l)) as [->|]; [|reflexivity].
  exfalso. apply Hn, list_elem_of_lookup. exists i. exact Hl.
Qed.

Lemma msg_dict_eta d : {| d_role := d_role d; d_content := d_content d |} = d.
Proof. destruct d; reflexivity. Qed.

Lemma history_update_system_prompt st sid sp :
  wf st -> system_only_first (history st sid) ->
  history (update_system_prompt sid sp st) sid = upsert_system sp (history st sid).
Proof.
  intros Hwf Hsof. unfold update_system_prompt, upsert_system.
  destruct (PyStr.truthy sp); [|reflexivity].
  pose proof (history_alloc st {| d_role := SYSTEM; d_content := sp |} sid Hwf) as Ha.
  pose proof (deref_alloc_new st {| d_role := SYSTEM; d_content := sp |}) as Hn.
  assert (Hh : history st sid = deref st <$> history_refs st sid) by reflexivity.
  destruct (history_refs st sid) as [|l0 rest] eqn:E; rewrite Hh in *.
  - destruct (alloc _ st) as [l st1]. cbn [fst snd] in *.
    rewrite history_set_history. cbn [fmap list_fmap]. rewrite Hn. reflexivity.
  - cbn [fmap list_fmap].
    destruct (bool_decide (d_role (deref st l0) <> SYSTEM)) eqn:Hb.
    + destruct (alloc _ st) as [l st1] eqn:Ea. cbn [fst snd] in *.
      rewrite history_set_history. rewrite fmap_cons, Hn.
      unfold history in Ha.
      rewrite (history_refs_alloc_snd _ _ _ _ sid Ea), E in Ha.
      rewrite Ha. reflexivity.
    + apply bool_decide_eq_false in Hb. apply dec_stable in Hb.
      rewrite (bool_decide_eq_true_2 _ Hb). cbn [andb].
      pose proof (system_tail_unaliased st l0 rest Hsof Hb) as Hna.
      destruct (bool_decide (d_content (deref st l0) <> sp)) eqn:Hc.
      * unfold history. rewrite history_refs_set_content, E.
        cbn [fmap list_fmap].
        change (list_fmap nat msg_dict (deref (set_content l0 sp st)) rest)
          with (deref (set_content l0 sp st) <$> rest).
        rewrite fmap_deref_set_content by exact Hna.
        rewrite deref_set_content.
        destruct (decide (l0 = l0)); [|contradiction]. rewrite Hb. reflexivity.
      * apply bool_decide_eq_false in Hc. apply dec_stable in Hc.
        unfold history. rewrite E. cbn [fmap list_fmap]. f_equal.
        rewrite <- Hb, <- Hc. symmetry. apply msg_dict_eta.
Qed.

Lemma wf_update_system_prompt st sid sp : wf st -> wf (update_system_prompt sid sp st).
Proof.
  intros Hwf. unfold update_system_prompt.
  destruct (PyStr.truthy sp); [|exact Hwf].
  pose proof (wf_alloc st {| d_role := SYSTEM; d_content := sp |} Hwf) as Hw.
  pose proof (alloc_allocated st {| d_role := SYSTEM; d_content := sp |}) as Hn.
  destruct (history_refs st sid) as [|l0 rest] eqn:E.
  - destruct (alloc _ st) as [l st1]. cbn [fst snd] in *.
    apply wf_set_history; [exact Hw | repeat constructor; exact Hn].
  - destruct (bool_decide (d_role (deref st l0) <> SYSTEM)).
    + destruct (alloc _ st) as [l st1] eqn:Ea. cbn [fst snd] in *.
      apply wf_set_history; [exact Hw|].
      constructor; [exact Hn|].
      apply Forall_forall. intros l' Hl'. apply (wf_refs st1 sid l' Hw).
      rewrite (history_refs_alloc_snd _ _ _ _ sid Ea), E. exact Hl'.
    + destruct (_ && _); [apply wf_set_content|]; exact Hwf.
Qed.

Lemma system_only_first_roles (t t' : list msg_dict) :
  d_role <$> t = d_role <$> t' -> system_only_first t -> system_only_first t'.
Proof.
  unfold system_only_first. intros Heq H.
  assert (Ht : d_role <$> tail t = d_role <$> tail t').
  { destruct t, t'; try discriminate; [reflexivity|].
    simpl in *. injection Heq as _ Heq. exact Heq. }
  apply (Forall_fmap d_role (fun r => r <> SYSTEM)).
  rewrite <- Ht. apply Forall_fmap. exact H.
Qed.

Lemma roles_set_content st l0 c sid :
  d_role <$> history (set_content l0 c st) sid = d_role <$> history st sid.
Proof.
  unfold history. rewrite history_refs_set_content.
  rewrite <- !list_fmap_compose. apply list_fmap_ext. intros i l _.
  simpl. apply role_set_content.
Qed.

Lemma roles_update_system_prompt_ne st sid sid' sp :
  wf st -> sid <> sid' ->
  d_role <$> history (update_system_prompt sid sp st) sid'
  = d_role <$> history st sid'.
Proof.
  intros Hwf Hne. unfold update_system_prompt.
  destruct (PyStr.truthy sp); [|reflexivity].
  pose proof (history_alloc st {| d_role := SYSTEM; d_content := sp |} sid' Hwf) as Ha.
  destruct (history_refs st sid) as [|l0 rest].
  - destruct (alloc _ st) as [l st1]. cbn [fst snd] in *.
    rewrite history_set_history_ne by exact Hne. rewrite Ha. reflexivity.
  - destruct (bool_decide (d_role (deref st l0) <> SYSTEM)).
    + destruct (alloc _ st) as [l st1]. cbn [fst snd] in *.
      rewrite history_set_history_ne by exact Hne. rewrite Ha. reflexivity.
    + destruct (_ && _); [apply roles_set_content | reflexivity].
Qed.

Lemma system_only_first_upsert sp t :
  system_only_first t -> system_only_first (upsert_system sp t).
Proof.
  unfold upsert_system, system_only_first. intros H.
  destruct (PyStr.truthy sp); [|exact H].
  destruct t as [|d rest]; simpl; [constructor|].
  destruct (bool_decide (d_role d <> SYSTEM)) eqn:Hb; simpl; [|exact H].
  apply bool_decide_eq_true in Hb. constructor; assumption.
Qed.

Lemma system_only_first_exchange t up full :
  system_only_first t ->
  system_only_first (t ++ [ {| d_role := USER; d_content := up |};
                            {| d_role := ASSISTANT; d_content := full |} ]).
Proof.
  unfold system_only_first. intros H.
  destruct t as [|d0 t]; simpl.
  - repeat constructor. discriminate.
  - apply Forall_app. split; [exact H|]. repeat constructor; discriminate.
Qed.

(** The stored values after the commit of an exchange. *)
Lemma history_committed st sid sp up full :
  wf st -> system_only_first (history st sid) ->
  history (committed sid sp up full st) sid
  = upsert_system sp (history st sid)
    ++ [ {| d_role := USER; d_content := up |};
         {| d_role := ASSISTANT; d_content := full |} ].
Proof.
  intros Hwf Hsof. unfold committed.
  rewrite history_append_message
    by (apply wf_append_message, wf_update_system_prompt, Hwf).
  rewrite history_append_message by (apply wf_update_system_prompt, Hwf).
  rewrite history_update_system_prompt by assumption.
  rewrite <- app_assoc. reflexivity.
Qed.

Lemma roles_committed_ne st sid sid' sp up full :
  wf st -> sid <> sid' ->
  d_role <$> history (committed sid sp up full st) sid'
  = d_role <$> history st sid'.
Proof.
  intros Hwf Hne. unfold committed.
  rewrite history_append_message_ne;
    [|apply wf_append_message, wf_update_system_prompt, Hwf | exact Hne].
  rewrite history_append_message_ne;
    [|apply wf_update_system_prompt, Hwf | exact Hne].
  apply roles_update_system_prompt_ne; assumption.
Qed.

Lemma wf_committed st sid sp up full : wf st -> wf (committed sid sp up full st).
Proof.
  intros Hwf. unfold committed.
  apply wf_append_message, wf_append_message, wf_update_system_prompt, Hwf.
Qed.

(** ** The outgoing message list *)

Lemma foldl_convert_step_plain st (refs : list nat) acc :
  Forall (fun l => d_role (deref st l) <> SYSTEM) refs ->
  foldl (convert_step st) acc refs
  = acc ++ (to_chat_message <$> (deref st <$> refs)).
Proof.
  revert acc. induction refs as [|l refs IH]; intros acc HF; simpl.
  - rewrite app_nil_r. reflexivity.
  - inversion HF as [|? ? Hl HF']; subst.
    rewrite IH by exact HF'. unfold convert_step.
    rewrite (bool_decide_eq_false_2 _ Hl). simpl.
    rewrite <- app_assoc. reflexivity.
Qed.

Lemma tail_roles st l0 (rest : list nat) :
  system_only_first (deref st <$> l0 :: rest) ->
  Forall (fun l => d_role (deref st l) <> SYSTEM) rest.
Proof.
  unfold system_only_first; simpl. intros H.
  change (Forall (fun d => d_role d <> SYSTEM) (deref st <$> rest)) in H.
  rewrite Forall_fmap in H. exact H.
Qed.

Lemma assemble_messages_store st sid sp :
  (assemble_messages sid sp st).2
  = (handle_system_prompt sp (history_refs st sid) st).2.
Proof.
  unfold assemble_messages.
  destruct (handle_system_prompt sp (history_refs st sid) st); reflexivity.
Qed.

Lemma assemble_messages_list st sid sp :
  system_only_first (history st sid) ->
  (assemble_messages sid sp st).1 = assembled sp (history st sid).
Proof.
  intros Hsof. unfold assemble_messages, handle_system_prompt, assembled, history in *.
  destruct (PyStr.truthy sp).
  - destruct (history_refs st sid) as [|l0 rest]; [reflexivity|].
    pose proof (tail_roles st l0 rest Hsof) as Hrest.
    cbn [fmap list_fmap].
    destruct (bool_decide (d_role (deref st l0) <> SYSTEM)) eqn:Hb; cbn [fst snd].
    + apply bool_decide_eq_true in Hb.
      rewrite foldl_convert_step_plain by (constructor; assumption).
      reflexivity.
    + apply bool_decide_eq_false in Hb. apply dec_stable in Hb.
      pose proof (system_tail_unaliased st l0 rest Hsof Hb) as Hna.
      rewrite (bool_decide_eq_true_2 _ Hb). cbn [andb].
      destruct (bool_decide (d_content (deref st l0) <> sp)) eqn:Hc; cbn [fst snd].
      * cbn [foldl]. unfold convert_step at 2.
        rewrite role_set_content, (bool_decide_eq_true_2 _ Hb). cbn [andb starts_with_system system_message role].
        rewrite (bool_decide_eq_true_2 (SYSTEM = SYSTEM)) by reflexivity.
        rewrite foldl_convert_step_plain.
        -- rewrite fmap_deref_set_content by exact Hna. reflexivity.
        -- apply Forall_forall. intros l Hl. rewrite role_set_content.
           rewrite Forall_forall in Hrest. apply Hrest, Hl.
      * apply bool_decide_eq_false in Hc. apply dec_stable in Hc.
        cbn [foldl]. unfold convert_step at 2.
        cbn [starts_with_system]. rewrite andb_false_r.
        rewrite foldl_convert_step_plain by exact Hrest.
        unfold to_chat_message, system_message. rewrite Hb, Hc. reflexivity.
  - destruct (history_refs st sid) as [|l0 rest]; [reflexivity|].
    pose proof (tail_roles st l0 rest Hsof) as Hrest.
    cbn [foldl fst snd]. unfold convert_step at 2.
    cbn [starts_with_system]. rewrite andb_false_r.
    rewrite foldl_convert_step_plain by exact Hrest. reflexivity.
Qed.

Lemma assemble_messages_history st sid sp :
  system_only_first (history st sid) ->
  history (assemble_messages sid sp st).2 sid
  = overwritten_system sp (history st sid).
Proof.
  intros Hsof. rewrite assemble_messages_store.
  unfold handle_system_prompt, overwritten_system.
  destruct (PyStr.truthy sp); [|reflexivity].
  assert (Hh : history st sid = deref st <$> history_refs st sid) by reflexivity.
  destruct (history_refs st sid) as [|l0 rest] eqn:E; rewrite Hh in *;
    [cbn [snd]; rewrite Hh; reflexivity|].
  cbn [fmap list_fmap].
  destruct (bool_decide (d_role (deref st l0) <> SYSTEM)) eqn:Hb;
    [cbn [snd]; rewrite Hh; reflexivity|].
  apply bool_decide_eq_false in Hb. apply dec_stable in Hb.
  pose proof (system_tail_unaliased st l0 rest Hsof Hb) as Hna.
  rewrite (bool_decide_eq_true_2 _ Hb). cbn [andb].
  destruct (bool_decide (d_content (deref st l0) <> sp)) eqn:Hc; cbn [snd].
  - unfold history. rewrite history_refs_set_content, E. cbn [fmap list_fmap].
    change (list_fmap nat msg_dict (deref (set_content l0 sp st)) rest)
      with (deref (set_content l0 sp st) <$> rest).
    rewrite fmap_deref_set_content by exact Hna.
    rewrite deref_set_content.
    destruct (decide (l0 = l0)); [|contradiction]. rewrite Hb. reflexivity.
  - apply bool_decide_eq_false in Hc. apply dec_stable in Hc.
    rewrite Hh. cbn [fmap list_fmap]. f_equal.
    rewrite <- Hb, <- Hc. symmetry. apply msg_dict_eta.
Qed.

Lemma roles_assemble_messages st sid sp sid' :
  d_role <$> history (assemble_messages sid sp st).2 sid'
  = d_role <$> history st sid'.
Proof.
  rewrite assemble_messages_store. unfold handle_system_prompt.
  destruct (PyStr.truthy sp); [|reflexivity].
  destruct (history_refs st sid) as [|l0 rest]; [reflexivity|].
  destruct (bool_decide (d_role (deref st l0) <> SYSTEM)); [reflexivity|].
  destruct (_ && _); [apply roles_set_content | reflexivity].
Qed.

Lemma wf_assemble_messages st sid sp :
  wf st -> wf (assemble_messages sid sp st).2.
Proof.
  intros Hwf. rewrite assemble_messages_store. unfold handle_system_prompt.
  destruct (PyStr.truthy sp); [|exact Hwf].
  destruct (history_refs st sid) as [|l0 rest]; [exact Hwf|].
  destruct (bool_decide (d_role (deref st l0) <> SYSTEM)); [exact Hwf|].
  destruct (_ && _); [apply wf_set_content|]; exact Hwf.
Qed.

Lemma known_assemble_messages st sid sp sid' :
  known (assemble_messages sid sp st).2 sid' = known st sid'.
Proof.
  rewrite assemble_messages_store. unfold handle_system_prompt.
  destruct (PyStr.truthy sp); [|reflexivity].
  destruct (history_refs st sid) as [|l0 rest]; [reflexivity|].
  destruct (bool_decide (d_role (deref st l0) <> SYSTEM)); [reflexivity|].
  destruct (_ && _); reflexivity.
Qed.

(** ** The transcript invariant *)

Lemma inv_empty : inv empty_store.
Proof.
  split.
  - apply map_Forall_empty.
  - intros sid. constructor.
Qed.

Lemma inv_set_history_nil st sid : inv st -> inv (set_history sid [] st).
Proof.
  intros [Hwf Hsof]. split.
  - apply wf_set_history; [exact Hwf | constructor].
  - intros sid'. destruct (decide (sid = sid')) as [<-|Hne].
    + rewrite history_set_history. constructor.
    + rewrite history_set_history_ne by exact Hne. apply Hsof.
Qed.

Lemma inv_initialized st sid : inv st -> inv (initialized sid st).
Proof.
  intros H. unfold initialized.
  destruct (known st sid); [exact H | apply inv_set_history_nil, H].
Qed.

Lemma inv_assemble_messages st sid sp : inv st -> inv (assemble_messages sid sp st).2.
Proof.
  intros [Hwf Hsof]. split.
  - apply wf_assemble_messages, Hwf.
  - intros sid'. apply (system_only_first_roles (history st sid')); [|apply Hsof].
    symmetry. apply roles_assemble_messages.
Qed.

Lemma inv_committed st sid sp up full : inv st -> inv (committed sid sp up full st).
Proof.
  intros [Hwf Hsof]. split.
  - apply wf_committed, Hwf.
  - intros sid'. destruct (decide (sid = sid')) as [<-|Hne].
    + rewrite history_committed by (try apply Hsof; exact Hwf).
      apply system_only_first_exchange, system_only_first_upsert, Hsof.
    + apply (system_only_first_roles (history st sid')); [|apply Hsof].
      symmetry. apply roles_committed_ne; assumption.
Qed.

Lemma run_block_inv b st s' :
  inv st -> run_block b (unlocked st) = Some (tt, s') ->
  exists st', s' = unlocked st' /\ inv st'.
Proof.
  intros Hinv Hrun. destruct b as [sid|o|sid sp|sid sp up full]; simpl in Hrun.
  - unfold bind in Hrun. rewrite initialize_session_history_unlocked in Hrun.
    injection Hrun as <-. eexists; split; [reflexivity|].
    apply inv_initialized, Hinv.
  - destruct o as [sid|].
    + destruct (PyStr.truthy sid) eqn:Ht.
      * destruct (known st sid) eqn:Hk; unfold bind in Hrun.
        -- rewrite clear_known in Hrun by assumption.
           injection Hrun as <-. eexists; split; [reflexivity|].
           apply inv_set_history_nil, Hinv.
        -- rewrite clear_unknown in Hrun by assumption. discriminate.
      * unfold bind, clear_backend_history_route in Hrun. simpl in Hrun.
        rewrite Ht in Hrun. simpl in Hrun. injection Hrun as <-.
        eexists; split; [reflexivity | exact Hinv].
    + injection Hrun as <-. eexists; split; [reflexivity | exact Hinv].
  - unfold bind in Hrun. rewrite assemble_block_unlocked in Hrun.
    injection Hrun as <-. eexists; split; [reflexivity|].
    apply inv_assemble_messages, Hinv.
  - destruct (known st sid) eqn:Hk.
    + rewrite commit_exchange_known in Hrun by exact Hk.
      injection Hrun as <-. eexists; split; [reflexivity|].
      apply inv_committed, Hinv.
    + rewrite commit_exchange_unknown in Hrun by exact Hk. discriminate.
Qed.

Lemma reachable_inv s :
  reachable s -> exists st, s = unlocked st /\ inv st.
Proof.
  induction 1 as [|b s s' _ [st [-> Hinv]] Hrun].
  - exists empty_store. split; [reflexivity | apply inv_empty].
  - apply (run_block_inv b st s' Hinv Hrun).
Qed.

(** ** The stream loop *)

Lemma string_app_assoc (a b c : string) : (a +:+ b) +:+ c = a +:+ (b +:+ c).
Proof.
  induction a as [|x a IH]; [reflexivity|].
  change (String x ((a +:+ b) +:+ c) = String x (a +:+ (b +:+ c))).
  rewrite IH. reflexivity.
Qed.

Lemma string_app_nil_r (a : string) : a +:+ "" = a.
Proof.
  induction a as [|x a IH]; [reflexivity|].
  change (String x (a +:+ "") = String x a). rewrite IH. reflexivity.
Qed.

Lemma truthy_opt_delta_text delta :
  PyStr.truthy_opt delta = bool_decide (delta_text delta <> "").
Proof. destruct delta as [[|c s]|]; reflexivity. Qed.

Lemma consume_events deltas acc :
  (consume deltas acc).1 = TextChunk <$> emitted deltas.
Proof.
  revert acc. unfold emitted.
  induction deltas as [|d deltas IH]; intros acc; [reflexivity|].
  cbn [consume fmap list_fmap]. rewrite truthy_opt_delta_text.
  change (list_fmap (option string) string delta_text deltas)
    with (delta_text <$> deltas).
  destruct (decide (delta_text d <> "")) as [Hd|Hd].
  - rewrite (bool_decide_eq_true_2 _ Hd), filter_cons_True by exact Hd.
    specialize (IH (acc +:+ default "" d)).
    destruct (consume deltas (acc +:+ default "" d)). simpl in *.
    rewrite IH. reflexivity.
  - rewrite (bool_decide_eq_false_2 _ Hd), filter_cons_False by exact Hd.
    apply IH.
Qed.

Lemma consume_full deltas acc :
  (consume deltas acc).2 = acc +:+ PyStr.concat (delta_text <$> deltas).
Proof.
  revert acc. induction deltas as [|d deltas IH]; intros acc.
  - simpl. rewrite string_app_nil_r. reflexivity.
  - cbn [consume fmap list_fmap PyStr.concat]. rewrite truthy_opt_delta_text.
    change (list_fmap (option string) string delta_text deltas)
      with (delta_text <$> deltas).
    destruct (decide (delta_text d <> "")) as [Hd|Hd].
    + rewrite (bool_decide_eq_true_2 _ Hd).
      specialize (IH (acc +:+ default "" d)).
      destruct (consume deltas (acc +:+ default "" d)). simpl in *.
      rewrite IH. apply string_app_assoc.
    + rewrite (bool_decide_eq_false_2 _ Hd). rewrite IH.
      apply dec_stable in Hd. rewrite Hd. reflexivity.
Qed.

Lemma concat_emitted deltas :
  PyStr.concat (emitted deltas) = PyStr.concat (delta_text <$> deltas).
Proof.
  unfold emitted. induction deltas as [|d deltas IH]; [reflexivity|].
  cbn [fmap list_fmap PyStr.concat].
  change (list_fmap (option string) string delta_text deltas)
    with (delta_text <$> deltas).
  destruct (decide (delta_text d <> "")) as [Hd|Hd].
  - rewrite filter_cons_True by exact Hd. simpl. rewrite IH. reflexivity.
  - rewrite filter_cons_False by exact Hd. rewrite IH.
    apply dec_stable in Hd. rewrite Hd. reflexivity.
Qed.

Lemma generate_accepted key groq payload st :
  accepted key groq payload = true ->
  generate_chat_stream_with_session key groq payload (unlocked st)
  = let resp := stream_of groq payload st in
    let call := Some (model_of payload, outgoing payload st, temperature_of payload) in
    let full := PyStr.concat (emitted (chunks resp)) in
    match ending resp with
    | Raised e =>
        {| events := (TextChunk <$> emitted (chunks resp))
                     ++ [Error ("LLM Error: " +:+ e)];
           llm_call := call;
           final := Some (unlocked (before_stream payload st));
           raised := None |}
    | Exhausted =>
        if known st (session_of payload) then
          {| events := (TextChunk <$> emitted (chunks resp)) ++ [FullResponse full];
             llm_call := call;
             final := Some (unlocked (committed (session_of payload)
                              (system_prompt_of payload) (prompt_of payload) full
                              (before_stream payload st)));
             raised := None |}
        else
          {| events := TextChunk <$> emitted (chunks resp);
             llm_call := call;
             final := None;
             raised := None |}
    end.
Proof.
  unfold accepted. rewrite !andb_true_iff, bool_decide_eq_true.
  intros [[[[Hc Hs] Hp] Hk] Hg].
  assert (Hfl : float (default (PyFloat default_temperature) (p_temperature payload))
                = Ok (temperature_of payload)).
  { unfold converts in Hc. unfold temperature_of.
    destruct (float (default (PyFloat default_temperature) (p_temperature payload)));
      [reflexivity | discriminate]. }
  unfold generate_chat_stream_with_session.
  rewrite Hfl, Hs, Hp, Hk. cbn [negb].
  fold (model_of payload) (session_of payload) (prompt_of payload)
    (system_prompt_of payload).
  rewrite Hg, assemble_block_unlocked.
  fold (outgoing payload st) (before_stream payload st).
  fold (stream_of groq payload st).
  pose proof (consume_events (chunks (stream_of groq payload st)) "") as He.
  pose proof (consume_full (chunks (stream_of groq payload st)) "") as Hf.
  rewrite <- concat_emitted in Hf.
  destruct (consume (chunks (stream_of groq payload st)) "") as [evs full].
  cbn [fst snd] in He, Hf. change ("" +:+ ?x) with x in Hf. subst evs full.
  cbv zeta.
  destruct (ending (stream_of groq payload st)); [|reflexivity].
  unfold before_stream.
  destruct (known st (session_of payload)) eqn:Hkn.
  - rewrite commit_exchange_known
      by (rewrite known_assemble_messages; exact Hkn).
    reflexivity.
  - rewrite commit_exchange_unknown
      by (rewrite known_assemble_messages; exact Hkn).
    reflexivity.
Qed.

Lemma float_raises x e : float x = Raise e -> e = OverflowError.
Proof. destruct e. reflexivity. Qed.

Lemma generate_raises key groq payload s :
  converts payload = false ->
  generate_chat_stream_with_session key groq payload s
  = raising_run OverflowError s.
Proof.
  unfold converts, generate_chat_stream_with_session. intros H.
  destruct (float (default (PyFloat default_temperature) (p_temperature payload)))
    as [t|[]]; [discriminate | reflexivity].
Qed.

Lemma generate_rejected key groq payload s :
  converts payload = true ->
  accepted key groq payload = false ->
  exists msg, generate_chat_stream_with_session key groq payload s = error_run msg s.
Proof.
  unfold accepted, generate_chat_stream_with_session. intros Hc H.
  rewrite Hc in H. unfold converts in Hc.
  destruct (float (default (PyFloat default_temperature) (p_temperature payload)))
    as [temperature|]; [|discriminate].
  destruct (PyStr.truthy_opt (p_session_id payload)); [|eexists; reflexivity].
  destruct (PyStr.truthy_opt (p_prompt payload)); [|eexists; reflexivity].
  destruct (PyStr.truthy_opt key); [|eexists; reflexivity].
  cbn [andb negb] in *.
  fold (model_of payload) in *.
  destruct (LlamaGroq groq (model_of payload) (default "" key)) as [e|];
    [eexists; reflexivity|].
  rewrite bool_decide_eq_true_2 in H by reflexivity. discriminate.
Qed.

Lemma chat_route_post_unlocked key groq payload st :
  chat_route_post key groq payload (unlocked st)
  = generate_chat_stream_with_session key groq payload
      (unlocked (if PyStr.truthy_opt (p_session_id payload)
                 then initialized (session_of payload) st else st)).
Proof.
  unfold chat_route_post.
  destruct (PyStr.truthy_opt (p_session_id payload)); [|reflexivity].
  fold (session_of payload). rewrite initialize_session_history_unlocked.
  reflexivity.
Qed.

Lemma known_initialized sid st : known (initialized sid st) sid = true.
Proof.
  unfold initialized. destruct (known st sid) eqn:Hk; [exact Hk|].
  rewrite known_set_history, bool_decide_eq_true_2 by reflexivity.
  apply orb_true_r.
Qed.

Lemma history_initialized sid st sid' :
  history (initialized sid st) sid' = history st sid'.
Proof.
  unfold initialized. destruct (known st sid) eqn:Hk; [reflexivity|].
  destruct (decide (sid = sid')) as [<-|Hne].
  - rewrite history_set_history. apply known_false in Hk.
    unfold history, history_refs. rewrite Hk. reflexivity.
  - apply history_set_history_ne, Hne.
Qed.

Lemma initialized_known sid st : known st sid = true -> initialized sid st = st.
Proof. unfold initialized. intros ->. reflexivity. Qed.

(** ** Requests keep the globals reachable *)

Lemma reachable_initialized st sid :
  reachable (unlocked st) -> reachable (unlocked (initialized sid st)).
Proof.
  intros H. apply (reachable_block (Initialize sid) _ _ H).
  simpl. unfold bind. rewrite initialize_session_history_unlocked. reflexivity.
Qed.

Lemma reachable_assembled st sid sp :
  reachable (unlocked st) -> reachable (unlocked (assemble_messages sid sp st).2).
Proof.
  intros H. apply (reachable_block (Assemble sid sp) _ _ H).
  simpl. unfold bind. rewrite assemble_block_unlocked. reflexivity.
Qed.

Lemma reachable_committed st sid sp up full :
  known st sid = true ->
  reachable (unlocked st) -> reachable (unlocked (committed sid sp up full st)).
Proof.
  intros Hk H. apply (reachable_block (Commit sid sp up full) _ _ H).
  simpl. apply commit_exchange_known, Hk.
Qed.

(** A request that is not accepted makes no call and leaves the globals as
    they were. *)
Lemma generate_not_accepted key groq payload s :
  accepted key groq payload = false ->
  exists evs exn,
    generate_chat_stream_with_session key groq payload s
    = {| events := evs; llm_call := None; final := Some s; raised := exn |}.
Proof.
  intros Ha. destruct (converts payload) eqn:Hc.
  - destruct (generate_rejected key groq payload s Hc Ha) as [msg ->].
    eexists _, _. reflexivity.
  - rewrite (generate_raises key groq payload s Hc). eexists _, _. reflexivity.
Qed.

Lemma generate_reachable key groq payload s s' :
  reachable s ->
  final (generate_chat_stream_with_session key groq payload s) = Some s' ->
  reachable s'.
Proof.
  intros Hr Hf. destruct (reachable_inv s Hr) as [st [-> _]].
  destruct (accepted key groq payload) eqn:Ha.
  - rewrite (generate_accepted _ _ _ _ Ha) in Hf. cbv zeta in Hf.
    destruct (ending (stream_of groq payload st)).
    + destruct (known st (session_of payload)) eqn:Hk; [|discriminate].
      injection Hf as <-. apply reachable_committed.
      * unfold before_stream. rewrite known_assemble_messages. exact Hk.
      * apply reachable_assembled, Hr.
    + injection Hf as <-. apply reachable_assembled, Hr.
  - destruct (generate_not_accepted key groq payload (unlocked st) Ha)
      as (evs & exn & Hm).
    rewrite Hm in Hf. injection Hf as <-. exact Hr.
Qed.

Lemma chat_route_post_reachable key groq payload s s' :
  reachable s ->
  final (chat_route_post key groq payload s) = Some s' ->
  reachable s'.
Proof.
  intros Hr Hf. destruct (reachable_inv s Hr) as [st [-> _]].
  rewrite chat_route_post_unlocked in Hf.
  refine (generate_reachable _ _ _ _ _ _ Hf).
  destruct (PyStr.truthy_opt (p_session_id payload));
    [apply reachable_initialized, Hr | exact Hr].
Qed.

Lemma clear_backend_history_route_reachable sid s r s' :
  reachable s ->
  clear_backend_history_route sid s = Some (r, s') -> reachable s'.
Proof.
  intros Hr Hc. apply (reachable_block (Clear sid) _ _ Hr).
  simpl. unfold bind. rewrite Hc. reflexivity.
Qed.

Lemma create_session_route_reachable uuid s r s' :
  reachable s ->
  create_session_route uuid s = Some (r, s') -> reachable s'.
Proof.
  intros Hr Hc. apply (reachable_block (Initialize uuid) _ _ Hr).
  unfold create_session_route, bind, ret in Hc. simpl. unfold bind.
  destruct (initialize_session_history uuid s) as [[refs s1]|]; [|discriminate].
  injection Hc as _ <-. reflexivity.
Qed.

(** C2.  In every state reached from the empty store by the blocks that run
    under the lock (initialize, clear, the write of the first block of a
    chat request, and the commit after a successful stream), every transcript
    has a system message at index 0 or nowhere; every block that returns
    keeps it so.  Order is insertion order: initializing leaves every
    transcript as it is, clearing empties the transcript of its session and
    leaves the others as they are, and a commit keeps the stored messages in
    place, upserts the system message at the front and appends the user
    message and then the assistant message at the end. *)
Theorem transcript_invariant (s : state) :
  reachable s ->
  (forall sid i d,
      history (st_store s) sid !! i = Some d -> d_role d = SYSTEM -> i = 0)
  /\ (forall b s', run_block b s = Some (tt, s') ->
      forall sid i d,
        history (st_store s') sid !! i = Some d -> d_role d = SYSTEM -> i = 0)
  /\ (forall sid refs s', initialize_session_history sid s = Some (refs, s') ->
      forall sid', history (st_store s') sid' = history (st_store s) sid')
  /\ (forall sid r s',
        sid <> "" -> clear_backend_history_route (Some sid) s = Some (r, s') ->
        history (st_store s') sid = []
        /\ forall sid', sid <> sid' ->
             history (st_store s') sid' = history (st_store s) sid')
  /\ (forall sid sp up full s',
        commit_exchange sid sp up full s = Some (tt, s') ->
        history (st_store s') sid
        = upsert_system sp (history (st_store s) sid)
          ++ [ {| d_role := USER; d_content := up |};
               {| d_role := ASSISTANT; d_content := full |} ]).
Proof.
  intros Hr.
  assert (Hgen : forall s0, reachable s0 -> forall sid i d,
    history (st_store s0) sid !! i = Some d -> d_role d = SYSTEM -> i = 0).
  { intros s0 Hr0 sid. destruct (reachable_inv s0 Hr0) as [st [-> [_ Hsof]]].
    apply system_only_first_lookup, Hsof. }
  split; [exact (Hgen s Hr)|].
  split; [intros b s' Hb; exact (Hgen s' (reachable_block b s s' Hr Hb))|].
  destruct (reachable_inv s Hr) as [st [-> [Hwf Hsof]]].
  split; [|split].
  - intros sid refs s' Hi sid'.
    rewrite initialize_session_history_unlocked in Hi. injection Hi as _ <-.
    apply history_initialized.
  - intros sid r s' Hne Hc. apply truthy_nonempty in Hne.
    destruct (known st sid) eqn:Hk.
    + rewrite clear_known in Hc by assumption. injection Hc as _ <-.
      cbn [st_store unlocked]. split.
      * apply history_set_history.
      * intros sid' Hd. apply history_set_history_ne, Hd.
    + rewrite clear_unknown in Hc by assumption. discriminate.
  - intros sid sp up full s' Hc.
    destruct (known st sid) eqn:Hk.
    + rewrite commit_exchange_known in Hc by exact Hk. injection Hc as <-.
      apply history_committed; [exact Hwf | apply Hsof].
    + rewrite commit_exchange_unknown in Hc by exact Hk. discriminate.
Qed.

Lemma after_first_turn_reachable : reachable Scenario.after_first_turn.
Proof.
  apply (chat_route_post_reachable Scenario.api_key
           (Scenario.stub [Some "Hel"; Some "lo"] Exhausted)
           (Scenario.request (Some "s1") (Some "hi") (Some "A"))
           initial_state).
  - apply reachable_initial.
  - vm_compute. reflexivity.
Qed.

Lemma transcript_invariant_witness :
  reachable Scenario.after_first_turn
  /\ (forall sid i d,
        history (st_store Scenario.after_first_turn) sid !! i = Some d ->
        d_role d = SYSTEM -> i = 0).
Proof.
  split; [exact after_first_turn_reachable|].
  apply (transcript_invariant Scenario.after_first_turn
           after_first_turn_reachable).
Defined.

(** ** Accepted requests *)

Lemma nonempty_history_known st sid : history st sid <> [] -> known st sid = true.
Proof.
  unfold history, history_refs, known. intros H.
  apply bool_decide_eq_true.
  destruct (session_histories st !! sid); [eexists; reflexivity|].
  contradiction H. reflexivity.
Qed.

Lemma accepted_session key groq payload :
  accepted key groq payload = true -> PyStr.truthy_opt (p_session_id payload) = true.
Proof. unfold accepted. rewrite !andb_true_iff. tauto. Qed.

Lemma accepted_converts key groq payload :
  accepted key groq payload = true -> converts payload = true.
Proof. unfold accepted. rewrite !andb_true_iff. tauto. Qed.

(** ** The run of a request *)

Lemma final_events_chunks texts terminal :
  is_final terminal = true ->
  final_events ((TextChunk <$> texts) ++ [terminal]) = [terminal].
Proof.
  intros Ht. unfold final_events. rewrite filter_app.
  replace (filter (fun e => is_final e = true) (TextChunk <$> texts)) with (@nil event).
  - simpl. rewrite filter_cons_True by exact Ht. reflexivity.
  - induction texts as [|t texts IH]; [reflexivity|].
    cbn [fmap list_fmap]. rewrite filter_cons_False by discriminate. exact IH.
Qed.

(** A chat request from a state where the lock is free enters the generator
    with the session known and every transcript as it was. *)
Lemma chat_route_post_entry key groq payload st :
  exists st0,
    chat_route_post key groq payload (unlocked st)
    = generate_chat_stream_with_session key groq payload (unlocked st0)
    /\ (PyStr.truthy_opt (p_session_id payload) = true ->
        known st0 (session_of payload) = true)
    /\ (forall sid, history st0 sid = history st sid)
    /\ (PyStr.truthy_opt (p_session_id payload) = true ->
        st0 = initialized (session_of payload) st)
    /\ (PyStr.truthy_opt (p_session_id payload) = false -> st0 = st).
Proof.
  rewrite chat_route_post_unlocked.
  destruct (PyStr.truthy_opt (p_session_id payload)).
  - exists (initialized (session_of payload) st).
    repeat split; try discriminate.
    + intros _. apply known_initialized.
    + intros sid. apply history_initialized.
  - exists st. repeat split; discriminate.
Qed.

(** A request that passes the checks, from a reachable state. *)
Lemma chat_route_post_accepted key groq payload s :
  reachable s ->
  accepted key groq payload = true ->
  exists st0,
    inv st0
    /\ (forall sid, history st0 sid = history (st_store s) sid)
    /\ chat_route_post key groq payload s
       = let resp := stream_of groq payload st0 in
         let call :=
           Some (model_of payload, outgoing payload st0, temperature_of payload) in
         let full := PyStr.concat (emitted (chunks resp)) in
         match ending resp with
         | Raised e =>
             {| events := (TextChunk <$> emitted (chunks resp))
                          ++ [Error ("LLM Error: " +:+ e)];
                llm_call := call;
                final := Some (unlocked (before_stream payload st0));
                raised := None |}
         | Exhausted =>
             {| events := (TextChunk <$> emitted (chunks resp))
                          ++ [FullResponse full];
                llm_call := call;
                final := Some (unlocked (committed (session_of payload)
                                 (system_prompt_of payload) (prompt_of payload)
                                 full (before_stream payload st0)));
                raised := None |}
         end.
Proof.
  intros Hr Ha. destruct (reachable_inv s Hr) as [st [-> Hinv]].
  destruct (chat_route_post_entry key groq payload st)
    as (st0 & -> & Hk & Hh & Hi & _).
  exists st0. split; [|split; [exact Hh|]].
  - rewrite (Hi (accepted_session _ _ _ Ha)). apply inv_initialized, Hinv.
  - rewrite (generate_accepted _ _ _ _ Ha). cbv zeta.
    rewrite (Hk (accepted_session _ _ _ Ha)). reflexivity.
Qed.

Lemma chat_route_post_rejected key groq payload st :
  accepted key groq payload = false ->
  llm_call (chat_route_post key groq payload (unlocked st)) = None.
Proof.
  intros Ha. destruct (chat_route_post_entry key groq payload st)
    as (st0 & -> & _).
  destruct (generate_not_accepted key groq payload (unlocked st0) Ha)
    as (evs & exn & ->).
  reflexivity.
Qed.

(** A run that called the collaborator, from a reachable state: the request
    was accepted, and the stream it got is the one of the store it entered
    the generator with. *)
Lemma chat_route_post_called key groq payload s resp :
  reachable s ->
  response_of groq (chat_route_post key groq payload s) = Some resp ->
  accepted key groq payload = true
  /\ exists st0,
       inv st0
       /\ (forall sid, history st0 sid = history (st_store s) sid)
       /\ resp = stream_of groq payload st0
       /\ chat_route_post key groq payload s
          = let call :=
              Some (model_of payload, outgoing payload st0, temperature_of payload) in
            let full := PyStr.concat (emitted (chunks resp)) in
            match ending resp with
            | Raised e =>
                {| events := (TextChunk <$> emitted (chunks resp))
                             ++ [Error ("LLM Error: " +:+ e)];
                   llm_call := call;
                   final := Some (unlocked (before_stream payload st0));
                   raised := None |}
            | Exhausted =>
                {| events := (TextChunk <$> emitted (chunks resp))
                             ++ [FullResponse full];
                   llm_call := call;
                   final := Some (unlocked (committed (session_of payload)
                                    (system_prompt_of payload) (prompt_of payload)
                                    full (before_stream payload st0)));
                   raised := None |}
            end.
Proof.
  intros Hr Hresp.
  destruct (accepted key groq payload) eqn:Ha.
  - split; [reflexivity|].
    destruct (chat_route_post_accepted key groq payload s Hr Ha)
      as (st0 & Hinv & Hh & Hrun).
    exists st0. split; [exact Hinv|]. split; [exact Hh|].
    rewrite Hrun in Hresp. cbv zeta in Hresp.
    assert (resp = stream_of groq payload st0) as ->.
    { unfold response_of in Hresp.
      destruct (ending (stream_of groq payload st0));
        cbn [llm_call] in Hresp; injection Hresp as <-; reflexivity. }
    split; [reflexivity | exact Hrun].
  - destruct (reachable_inv s Hr) as [st [-> _]].
    unfold response_of in Hresp.
    rewrite (chat_route_post_rejected _ _ _ _ Ha) in Hresp. discriminate.
Qed.

(** ** System prompt *)

(** C3 as amended.  On a session whose transcript starts with a system
    message of content [A], a successful chat request whose system prompt,
    once stripped of the whitespace around it, is a non-empty [B] other than
    [A] sends to the collaborator a list whose element 0 is the system
    message [B] and that holds no other system message, and leaves a
    transcript whose element 0 is the system message [B] and that holds no
    other system message. *)
Theorem system_prompt_replacement key groq payload (s : state) A rest resp :
  reachable s ->
  let r := chat_route_post key groq payload s in
  response_of groq r = Some resp ->
  ending resp = Exhausted ->
  history (st_store s) (session_of payload)
    = {| d_role := SYSTEM; d_content := A |} :: rest ->
  system_prompt_of payload <> "" ->
  system_prompt_of payload <> A ->
  let B := system_prompt_of payload in
  let full := PyStr.concat (delta_text <$> chunks resp) in
  let sent_tail :=
    (to_chat_message <$> rest) ++ [{| role := USER; content := prompt_of payload |}] in
  let stored_tail :=
    rest ++ [ {| d_role := USER; d_content := prompt_of payload |};
              {| d_role := ASSISTANT; d_content := full |} ] in
  llm_call r
    = Some (model_of payload, {| role := SYSTEM; content := B |} :: sent_tail,
            temperature_of payload)
  /\ Forall (fun m => role m <> SYSTEM) sent_tail
  /\ (exists s', final r = Some s'
        /\ history (st_store s') (session_of payload)
           = {| d_role := SYSTEM; d_content := B |} :: stored_tail)
  /\ Forall (fun d => d_role d <> SYSTEM) stored_tail.
Proof.
  intros Hr r Hresp He Hh HB HBA B full sent_tail stored_tail.
  destruct (chat_route_post_called key groq payload s resp Hr Hresp)
    as (_ & st0 & [Hwf Hsof] & Hh0 & -> & Hrun).
  assert (Hrest : Forall (fun d => d_role d <> SYSTEM) rest).
  { specialize (Hsof (session_of payload)). rewrite Hh0, Hh in Hsof. exact Hsof. }
  assert (HtB : PyStr.truthy B = true) by (apply truthy_nonempty, HB).
  subst r. rewrite Hrun. cbv zeta. rewrite He. cbn [llm_call final].
  subst sent_tail stored_tail full.
  assert (Hout : outgoing payload st0
                 = {| role := SYSTEM; content := B |}
                   :: (to_chat_message <$> rest)
                   ++ [{| role := USER; content := prompt_of payload |}]).
  { unfold outgoing. rewrite assemble_messages_list by apply Hsof.
    rewrite Hh0, Hh. unfold assembled. fold B. rewrite HtB.
    head_is_system. reflexivity. }
  rewrite Hout.
  split; [reflexivity|]. split.
  { apply Forall_app. split.
    - apply Forall_fmap. exact Hrest.
    - repeat constructor. discriminate. }
  split.
  - eexists. split; [reflexivity|]. cbn [st_store unlocked].
    destruct (inv_assemble_messages st0 (session_of payload) B (conj Hwf Hsof))
      as [Hwf1 Hsof1].
    unfold before_stream. fold B.
    rewrite history_committed by (try apply Hsof1; exact Hwf1).
    rewrite assemble_messages_history by apply Hsof.
    rewrite Hh0, Hh, concat_emitted. unfold overwritten_system, upsert_system.
    rewrite HtB. head_is_system. head_is_system. reflexivity.
  - apply Forall_app. split; [exact Hrest|]. repeat constructor; discriminate.
Qed.

Lemma system_prompt_replacement_witness :
  let payload := Scenario.request (Some "s1") (Some "again") (Some " B ") in
  let groq := Scenario.stub [Some "ok"] Exhausted in
  let r := chat_route_post Scenario.api_key groq payload Scenario.after_first_turn in
  llm_call r
    = Some ("llama3-8b-8192",
            [ {| role := SYSTEM; content := "B" |};
              {| role := USER; content := "hi" |};
              {| role := ASSISTANT; content := "Hello" |};
              {| role := USER; content := "again" |} ],
            default_temperature)
  /\ exists s', final r = Some s'
       /\ history (st_store s') "s1"
          = [ {| d_role := SYSTEM; d_content := "B" |};
              {| d_role := USER; d_content := "hi" |};
              {| d_role := ASSISTANT; d_content := "Hello" |};
              {| d_role := USER; d_content := "again" |};
              {| d_role := ASSISTANT; d_content := "ok" |} ].
Proof.
  intros payload groq r.
  pose proof (system_prompt_replacement Scenario.api_key groq payload
    Scenario.after_first_turn "A"
    [ {| d_role := USER; d_content := "hi" |};
      {| d_role := ASSISTANT; d_content := "Hello" |} ]
    {| chunks := [Some "ok"]; ending := Exhausted |}
    after_first_turn_reachable eq_refl eq_refl
    ltac:(vm_compute; reflexivity)
    ltac:(vm_compute; discriminate)
    ltac:(vm_compute; discriminate)) as (Hc & _ & Hs & _).
  split; [exact Hc | exact Hs].
Defined.

(** C3 as stated fails: on a transcript that starts with the system message
    [A], a successful request supplies the system prompt [A] followed by a
    space, which is not empty and is not [A]; the list sent and the
    transcript stored hold the system message [A], and no system message
    with the content supplied. *)
Lemma system_prompt_replacement_counterexample :
  let supplied := "A " in
  let r := chat_route_post Scenario.api_key (Scenario.stub [Some "ok"] Exhausted)
             (Scenario.request (Some "s1") (Some "again") (Some supplied))
             Scenario.after_first_turn in
  head (history (st_store Scenario.after_first_turn) "s1")
    = Some {| d_role := SYSTEM; d_content := "A" |}
  /\ supplied <> "" /\ supplied <> "A"
  /\ (exists model_id messages_for_llm temperature,
        llm_call r = Some (model_id, messages_for_llm, temperature)
        /\ head messages_for_llm = Some {| role := SYSTEM; content := "A" |}
        /\ head messages_for_llm <> Some {| role := SYSTEM; content := supplied |})
  /\ (exists s',
        final r = Some s'
        /\ head (history (st_store s') "s1")
           = Some {| d_role := SYSTEM; d_content := "A" |}
        /\ head (history (st_store s') "s1")
           <> Some {| d_role := SYSTEM; d_content := supplied |}).
Proof.
  split; [vm_compute; reflexivity|].
  split; [discriminate|]. split; [discriminate|]. split.
  - eexists _, _, _. split; [vm_compute; reflexivity|].
    split; [reflexivity | discriminate].
  - eexists. split; [vm_compute; reflexivity|].
    split; [reflexivity | discriminate].
Qed.

(** ** The event stream *)

(** A [/chat] request started while the lock is free, whatever its fields,
    returns with the lock free.  When [float(...)] returns, it yields text
    chunks and then one final event; when it raises, the generator raises
    and yields nothing. *)
Lemma chat_route_post_events key groq payload st :
  let r := chat_route_post key groq payload (unlocked st) in
  (exists s', final r = Some s' /\ history_lock s' = false)
  /\ if converts payload then
       raised r = None
       /\ exists texts terminal,
            events r = (TextChunk <$> texts) ++ [terminal]
            /\ is_final terminal = true
            /\ texts = match response_of groq r with
                       | Some resp => emitted (chunks resp)
                       | None => []
                       end
     else
       events r = [] /\ raised r = Some OverflowError /\ llm_call r = None.
Proof.
  intros r. subst r.
  destruct (chat_route_post_entry key groq payload st) as (st0 & -> & Hk & _).
  destruct (converts payload) eqn:Hc.
  - destruct (accepted key groq payload) eqn:Ha.
    + rewrite (generate_accepted _ _ _ _ Ha). cbv zeta.
      rewrite (Hk (accepted_session _ _ _ Ha)).
      destruct (ending (stream_of groq payload st0)) eqn:He;
        (split; [eexists; split; reflexivity|]);
        (split; [reflexivity|]); eexists _, _;
        (split; [reflexivity|]); (split; reflexivity).
    + destruct (generate_rejected key groq payload (unlocked st0) Hc Ha) as [msg ->].
      split; [eexists; split; reflexivity|].
      split; [reflexivity|]. exists [], (Error msg). repeat split.
  - rewrite (generate_raises key groq payload (unlocked st0) Hc).
    split; [eexists; split; reflexivity|]. repeat split.
Qed.

(** C4.  A chat request whose temperature is an integer too large for a
    [float] yields no event at all: [float(...)] raises [OverflowError]
    before the checks and outside the [try], the generator raises, and the
    stream holds no final event.  The collaborator is not called. *)
Theorem huge_temperature_yields_no_final_event :
  let payload := Scenario.with_temperature
                   (Scenario.request (Some "s1") (Some "hi") None)
                   (PyInt (10 ^ 400)) in
  let r := chat_route_post Scenario.api_key
             (Scenario.stub [Some "Hel"; Some "lo"] Exhausted)
             payload initial_state in
  events r = []
  /\ final_events (events r) = []
  /\ raised r = Some OverflowError
  /\ llm_call r = None.
Proof. repeat split; vm_compute; reflexivity. Qed.

(** C5 as amended.  In a successful chat request every non-empty delta of
    the stream is emitted, in order, as one text chunk carrying it; a delta
    that is empty or absent is skipped.  The terminal event carries the
    concatenation of all deltas in order, and the transcript ends with the
    user message followed by an assistant message whose content is that
    same concatenation. *)
Theorem full_response_accumulation key groq payload (s : state) resp :
  reachable s ->
  let r := chat_route_post key groq payload s in
  response_of groq r = Some resp ->
  ending resp = Exhausted ->
  let full := PyStr.concat (delta_text <$> chunks resp) in
  events r
    = (TextChunk <$> filter (fun d => d <> "") (delta_text <$> chunks resp))
      ++ [FullResponse full]
  /\ exists s' head,
       final r = Some s'
       /\ history (st_store s') (session_of payload)
          = head ++ [ {| d_role := USER; d_content := prompt_of payload |};
                      {| d_role := ASSISTANT; d_content := full |} ].
Proof.
  intros Hr r Hresp He full.
  destruct (accepted key groq payload) eqn:Ha.
  - destruct (chat_route_post_accepted key groq payload s Hr Ha)
      as (st0 & Hinv & Hh & Hrun).
    subst r. rewrite Hrun in *. cbv zeta in *.
    assert (resp = stream_of groq payload st0) as ->.
    { unfold response_of in Hresp.
      destruct (ending (stream_of groq payload st0));
        cbn [llm_call] in Hresp; injection Hresp as <-; reflexivity. }
    rewrite He. cbn [events final]. subst full.
    rewrite <- concat_emitted. split; [reflexivity|].
    eexists _, _. split; [reflexivity|]. cbn [st_store unlocked].
    destruct (inv_assemble_messages st0 (session_of payload)
                (system_prompt_of payload) Hinv) as [Hwf1 Hsof1].
    unfold before_stream.
    rewrite history_committed by (try apply Hsof1; exact Hwf1). reflexivity.
  - destruct (reachable_inv s Hr) as [st [-> _]].
    subst r. unfold response_of in Hresp.
    rewrite (chat_route_post_rejected _ _ _ _ Ha) in Hresp. discriminate.
Qed.

Lemma full_response_accumulation_witness :
  let groq := Scenario.stub [Some "Hel"; Some ""; None; Some "lo"] Exhausted in
  let payload := Scenario.request (Some "s1") (Some "hi") (Some "be terse") in
  let r := chat_route_post Scenario.api_key groq payload initial_state in
  events r = [TextChunk "Hel"; TextChunk "lo"; FullResponse "Hello"]
  /\ exists s' head,
       final r = Some s'
       /\ history (st_store s') "s1"
          = head ++ [ {| d_role := USER; d_content := "hi" |};
                      {| d_role := ASSISTANT; d_content := "Hello" |} ].
Proof.
  intros groq payload r.
  apply (full_response_accumulation Scenario.api_key groq payload initial_state
           {| chunks := [Some "Hel"; Some ""; None; Some "lo"];
              ending := Exhausted |}
           reachable_initial eq_refl eq_refl).
Defined.

(** C5 as stated fails: the stream gives two deltas, the first of them
    empty, and one text chunk is emitted, not two. *)
Lemma full_response_accumulation_counterexample :
  let deltas := [Some ""; Some "Hi"] in
  let r := chat_route_post Scenario.api_key (Scenario.stub deltas Exhausted)
             (Scenario.request (Some "s1") (Some "hi") None) initial_state in
  events r = [TextChunk "Hi"; FullResponse "Hi"]
  /\ events r <> (TextChunk <$> (delta_text <$> deltas)) ++ [FullResponse "Hi"]
  /\ length (filter (fun e => is_final e = false) (events r)) <> length deltas.
Proof.
  split; [|split].
  - vm_compute. reflexivity.
  - vm_compute. discriminate.
  - vm_compute. discriminate.
Qed.


(** ** Validation *)

Lemma generate_no_session key groq payload s :
  converts payload = true ->
  PyStr.truthy_opt (p_session_id payload) = false ->
  generate_chat_stream_with_session key groq payload s
  = error_run "session_id is required for backend history" s.
Proof.
  unfold converts, generate_chat_stream_with_session. intros Hc Hs.
  destruct (float (default (PyFloat default_temperature) (p_temperature payload)));
    [|discriminate].
  rewrite Hs. reflexivity.
Qed.

Lemma generate_no_prompt key groq payload s :
  converts payload = true ->
  PyStr.truthy_opt (p_session_id payload) = true ->
  PyStr.truthy_opt (p_prompt payload) = false ->
  generate_chat_stream_with_session key groq payload s
  = error_run "Prompt is required" s.
Proof.
  unfold converts, generate_chat_stream_with_session. intros Hc Hs Hp.
  destruct (float (default (PyFloat default_temperature) (p_temperature payload)));
    [|discriminate].
  rewrite Hs, Hp. reflexivity.
Qed.

Lemma not_accepted_without_session_or_prompt key groq payload :
  PyStr.truthy_opt (p_session_id payload) = false
  \/ PyStr.truthy_opt (p_prompt payload) = false ->
  accepted key groq payload = false.
Proof.
  unfold accepted. intros [-> | ->].
  - rewrite andb_false_r. reflexivity.
  - rewrite andb_false_r. reflexivity.
Qed.

(** C6 as amended.  Take a request whose temperature [float(...)] accepts.
    When its [session_id] is empty or missing, the generator yields exactly
    one event, the terminal error "session_id is required for backend
    history"; when it has a session id and its [prompt] is empty or missing,
    the generator yields exactly one event, the terminal error "Prompt is
    required".  In both cases the generator returns without raising, the
    collaborator is not called and the globals are left as they were;
    through [/chat], when the lock is free, every transcript holds the
    messages it held. *)
Theorem validation_errors key groq payload (s : state) :
  converts payload = true ->
  (PyStr.truthy_opt (p_session_id payload) = false ->
     generate_chat_stream_with_session key groq payload s
     = {| events := [Error "session_id is required for backend history"];
          llm_call := None;
          final := Some s;
          raised := None |})
  /\ (PyStr.truthy_opt (p_session_id payload) = true ->
      PyStr.truthy_opt (p_prompt payload) = false ->
      generate_chat_stream_with_session key groq payload s
      = {| events := [Error "Prompt is required"];
           llm_call := None;
           final := Some s;
           raised := None |})
  /\ (PyStr.truthy_opt (p_session_id payload) = false
      \/ PyStr.truthy_opt (p_prompt payload) = false ->
      history_lock s = false ->
      exists msg s',
        chat_route_post key groq payload s
        = {| events := [Error msg]; llm_call := None; final := Some s';
             raised := None |}
        /\ (msg = "session_id is required for backend history"
            \/ msg = "Prompt is required")
        /\ forall sid, history (st_store s') sid = history (st_store s) sid).
Proof.
  intros Hc. split; [|split].
  - intros Hs. apply generate_no_session; assumption.
  - intros Hs Hp. apply generate_no_prompt; assumption.
  - intros Hv Hl. rewrite (unlocked_eq s Hl).
    destruct (chat_route_post_entry key groq payload (st_store s))
      as (st0 & -> & _ & Hh & _).
    destruct (PyStr.truthy_opt (p_session_id payload)) eqn:Hs.
    + destruct Hv as [Hv|Hp]; [discriminate|].
      rewrite (generate_no_prompt _ _ _ _ Hc Hs Hp).
      exists "Prompt is required", (unlocked st0).
      split; [reflexivity|]. split; [right; reflexivity | exact Hh].
    + rewrite (generate_no_session _ _ _ _ Hc Hs).
      exists "session_id is required for backend history", (unlocked st0).
      split; [reflexivity|]. split; [left; reflexivity | exact Hh].
Qed.

Lemma validation_errors_witness :
  let no_session := Scenario.request (Some "") (Some "hi") None in
  let no_prompt := Scenario.request (Some "s1") None None in
  let groq := Scenario.stub [Some "x"] Exhausted in
  generate_chat_stream_with_session Scenario.api_key groq no_session initial_state
  = {| events := [Error "session_id is required for backend history"];
       llm_call := None;
       final := Some initial_state;
       raised := None |}
  /\ generate_chat_stream_with_session Scenario.api_key groq no_prompt initial_state
     = {| events := [Error "Prompt is required"];
          llm_call := None;
          final := Some initial_state;
          raised := None |}
  /\ exists msg s',
       chat_route_post Scenario.api_key groq no_prompt initial_state
       = {| events := [Error msg]; llm_call := None; final := Some s';
            raised := None |}
       /\ (msg = "session_id is required for backend history"
           \/ msg = "Prompt is required")
       /\ forall sid, history (st_store s') sid = history empty_store sid.
Proof.
  intros no_session no_prompt groq.
  split; [|split].
  - apply (validation_errors Scenario.api_key groq no_session initial_state
             eq_refl).
    reflexivity.
  - apply (validation_errors Scenario.api_key groq no_prompt initial_state
             eq_refl); reflexivity.
  - apply (validation_errors Scenario.api_key groq no_prompt initial_state
             eq_refl); [right; reflexivity | reflexivity].
Defined.

(** C6 as stated fails twice.  The error of a request without session id is
    not the message "session_id is required".  And a request without
    session id whose temperature is an integer too large for a [float]
    yields no event and raises [OverflowError]. *)
Lemma validation_errors_counterexample :
  let groq := Scenario.stub [] Exhausted in
  let no_session := Scenario.request None (Some "hi") None in
  let huge := Scenario.with_temperature no_session (PyInt (10 ^ 400)) in
  events (generate_chat_stream_with_session Scenario.api_key groq
            no_session initial_state)
  <> [Error "session_id is required"]
  /\ generate_chat_stream_with_session Scenario.api_key groq huge initial_state
     = {| events := []; llm_call := None; final := Some initial_state;
          raised := Some OverflowError |}
  /\ chat_route_post Scenario.api_key groq huge initial_state
     = {| events := []; llm_call := None; final := Some initial_state;
          raised := Some OverflowError |}.
Proof.
  split; [|split].
  - vm_compute. discriminate.
  - vm_compute. reflexivity.
  - vm_compute. reflexivity.
Qed.



(** ** Growth of a transcript at commit *)




(** ** Whitespace around the system prompt *)

Lemma lstrip_split s :
  exists l, s = l +:+ PyStr.lstrip s /\ all_space l.
Proof.
  induction s as [|c s (l & IH & Hl)].
  - exists EmptyString. split; [reflexivity | constructor].
  - simpl. destruct (PyStr.is_space c) eqn:Hc.
    + exists (String c l). split.
      * change (String c s = String c (l +:+ PyStr.lstrip s)). rewrite <- IH. reflexivity.
      * constructor; assumption.
    + exists EmptyString. split; [reflexivity | constructor].
Qed.

Lemma lstrip_head s :
  match PyStr.lstrip s with
  | EmptyString => True
  | String c _ => PyStr.is_space c = false
  end.
Proof.
  induction s as [|c s IH]; simpl; [exact I|].
  destruct (PyStr.is_space c) eqn:Hc; [exact IH | exact Hc].
Qed.

Lemma rstrip_split s :
  exists r, s = PyStr.rstrip s +:+ r /\ all_space r.
Proof.
  induction s as [|c s (r & IH & Hr)].
  - exists EmptyString. split; [reflexivity | constructor].
  - simpl. destruct (PyStr.rstrip s) as [|c' t] eqn:E.
    + change (EmptyString +:+ r) with r in IH. subst r.
      destruct (PyStr.is_space c) eqn:Hc.
      * exists (String c s). split; [reflexivity | constructor; assumption].
      * exists s. split; [reflexivity | exact Hr].
    + exists r. split; [|exact Hr].
      change (String c s = String c (String c' t +:+ r)). rewrite <- IH. reflexivity.
Qed.

Lemma rstrip_last s :
  match last (PyStr.chars (PyStr.rstrip s)) with
  | None => True
  | Some c => PyStr.is_space c = false
  end.
Proof.
  induction s as [|c s IH]; simpl; [exact I|].
  destruct (PyStr.rstrip s) as [|c' t] eqn:E.
  - destruct (PyStr.is_space c) eqn:Hc; simpl; [exact I | exact Hc].
  - change (PyStr.chars (String c (String c' t)))
      with (c :: PyStr.chars (String c' t)).
    change (PyStr.chars (String c' t)) with (c' :: PyStr.chars t) in *.
    rewrite last_cons_cons. exact IH.
Qed.

Lemma rstrip_keeps_head c s :
  PyStr.is_space c = false ->
  exists t, PyStr.rstrip (String c s) = String c t.
Proof.
  intros Hc. simpl. destruct (PyStr.rstrip s).
  - rewrite Hc. eexists; reflexivity.
  - eexists; reflexivity.
Qed.

Lemma rstrip_blank s : PyStr.rstrip s = "" <-> all_space s.
Proof.
  unfold all_space. induction s as [|c s IH]; simpl.
  - split; [constructor | reflexivity].
  - rewrite Forall_cons, <- IH.
    destruct (PyStr.rstrip s); [|split; [discriminate | intros [_ ?]; discriminate]].
    destruct (PyStr.is_space c); split; try tauto; try discriminate.
    intros [? _]. discriminate.
Qed.

Lemma lstrip_blank s : all_space (PyStr.lstrip s) <-> all_space s.
Proof.
  unfold all_space. induction s as [|c s IH]; simpl; [reflexivity|].
  destruct (PyStr.is_space c) eqn:Hc.
  - rewrite IH, Forall_cons. tauto.
  - reflexivity.
Qed.

Lemma strip_blank s : PyStr.strip s = "" <-> all_space s.
Proof. unfold PyStr.strip. rewrite rstrip_blank. apply lstrip_blank. Qed.

Lemma system_prompt_of_blank payload :
  system_prompt_of payload = "" <-> blank (p_system_prompt payload).
Proof.
  unfold system_prompt_of, blank.
  destruct (p_system_prompt payload) as [sp|]; simpl.
  - apply strip_blank.
  - split; [constructor | reflexivity].
Qed.

Lemma chat_route_post_strip key groq payload o o' s :
  PyStr.strip (default "" o) = PyStr.strip (default "" o') ->
  chat_route_post key groq (with_system_prompt payload o) s
  = chat_route_post key groq (with_system_prompt payload o') s.
Proof.
  intros H. unfold chat_route_post, generate_chat_stream_with_session.
  cbn [with_system_prompt p_session_id p_prompt p_system_prompt p_temperature
       p_model_id].
  rewrite H. reflexivity.
Qed.

(** ** Failed streams and clearing, in general *)

(** After a failed stream the transcript is the one before the request with
    the write of the first block applied: a system message whose content
    differs from a non-empty system prompt has been overwritten. *)
Lemma failed_stream_history key groq payload (s : state) resp e :
  reachable s ->
  let r := chat_route_post key groq payload s in
  response_of groq r = Some resp ->
  ending resp = Raised e ->
  exists s',
    final r = Some s'
    /\ history (st_store s') (session_of payload)
       = overwritten_system (system_prompt_of payload)
           (history (st_store s) (session_of payload)).
Proof.
  intros Hr r Hresp He.
  destruct (accepted key groq payload) eqn:Ha.
  - destruct (chat_route_post_accepted key groq payload s Hr Ha)
      as (st0 & [Hwf Hsof] & Hh & Hrun).
    subst r. rewrite Hrun in *. cbv zeta in *.
    assert (resp = stream_of groq payload st0) as ->.
    { unfold response_of in Hresp.
      destruct (ending (stream_of groq payload st0));
        cbn [llm_call] in Hresp; injection Hresp as <-; reflexivity. }
    rewrite He. eexists. split; [reflexivity|].
    cbn [st_store unlocked]. unfold before_stream.
    rewrite assemble_messages_history by apply Hsof. rewrite Hh. reflexivity.
  - destruct (reachable_inv s Hr) as [st [-> _]].
    subst r. unfold response_of in Hresp.
    rewrite (chat_route_post_rejected _ _ _ _ Ha) in Hresp. discriminate.
Qed.

(** Clearing a known session twice is clearing it once. *)
Lemma clear_known_twice sid st :
  sid <> "" -> known st sid = true ->
  exists r1 r2 s1,
    clear_backend_history_route (Some sid) (unlocked st) = Some (r1, s1)
    /\ clear_backend_history_route (Some sid) s1 = Some (r2, s1)
    /\ status r1 = "success" /\ status r2 = "success"
    /\ session_histories (st_store s1) !! sid = Some [].
Proof.
  intros Hne Hk. apply truthy_nonempty in Hne.
  eexists _, _, (unlocked (set_history sid [] st)).
  split; [apply clear_known; assumption|].
  split.
  - rewrite clear_known; [|exact Hne|].
    + unfold set_history; simpl. rewrite insert_insert_eq. reflexivity.
    + rewrite known_set_history, bool_decide_eq_true_2 by reflexivity.
      apply orb_true_r.
  - repeat split. unfold set_history; simpl. apply lookup_insert_eq.
Qed.


(** * Further properties of the code *)

(** ** The session store *)

Lemma initialized_idempotent sid st :
  initialized sid (initialized sid st) = initialized sid st.
Proof. apply initialized_known, known_initialized. Qed.

Lemma history_refs_initialized sid st sid' :
  history_refs (initialized sid st) sid' = history_refs st sid'.
Proof.
  unfold initialized. destruct (known st sid) eqn:Hk; [reflexivity|].
  rewrite history_refs_set_history. destruct (decide (sid = sid')) as [<-|]; [|reflexivity].
  apply known_false in Hk. unfold history_refs. rewrite Hk. reflexivity.
Qed.

Lemma lookup_initialized sid st :
  session_histories (initialized sid st) !! sid = Some (history_refs st sid).
Proof.
  unfold initialized, history_refs. destruct (known st sid) eqn:Hk.
  - apply bool_decide_eq_true in Hk. destruct Hk as [refs Hk]. rewrite Hk. reflexivity.
  - apply known_false in Hk. rewrite Hk. simpl. apply lookup_insert_eq.
Qed.

(** X1.  [initialize_session_history], run while the lock is free, returns
    the list of the session, leaves the session known and every transcript as
    it was (a known session keeps its messages, the whole store being then
    untouched), and frees the lock; run a second time it changes nothing. *)
Theorem initialize_session_history_keeps_transcripts sid st :
  exists s1,
    initialize_session_history sid (unlocked st) = Some (history_refs st sid, s1)
    /\ initialize_session_history sid s1 = Some (history_refs st sid, s1)
    /\ history_lock s1 = false
    /\ session_histories (st_store s1) !! sid = Some (history_refs st sid)
    /\ (forall sid', history (st_store s1) sid' = history st sid')
    /\ (if known st sid then st_store s1 = st
        else session_histories st !! sid = None).
Proof.
  exists (unlocked (initialized sid st)).
  rewrite !initialize_session_history_unlocked, initialized_idempotent.
  rewrite !history_refs_initialized.
  repeat split.
  - apply lookup_initialized.
  - intros sid'. apply history_initialized.
  - destruct (known st sid) eqn:Hk.
    + cbn [st_store unlocked]. apply initialized_known, Hk.
    + apply known_false, Hk.
Qed.

(** X2.  [/create-session], run while the lock is free, answers 200 with
    status success and the new id, and leaves the lock free, the id known and
    every transcript as it was: the transcript of an id the store did not
    know is empty. *)
Theorem create_session_route_creates uuid st :
  exists s1,
    create_session_route uuid (unlocked st)
    = Some ({| status := "success"; message := None; http_code := 200 |}, uuid, s1)
    /\ history_lock s1 = false
    /\ known (st_store s1) uuid = true
    /\ session_histories (st_store s1) !! uuid = Some (history_refs st uuid)
    /\ (forall sid, history (st_store s1) sid = history st sid)
    /\ (if known st uuid then st_store s1 = st else history (st_store s1) uuid = []).
Proof.
  exists (unlocked (initialized uuid st)).
  unfold create_session_route, bind, ret.
  rewrite initialize_session_history_unlocked.
  repeat split.
  - apply known_initialized.
  - apply lookup_initialized.
  - intros sid. apply history_initialized.
  - destruct (known st uuid) eqn:Hk; cbn [st_store unlocked].
    + apply initialized_known, Hk.
    + rewrite history_initialized. apply known_false in Hk.
      unfold history, history_refs. rewrite Hk. reflexivity.
Qed.

Lemma clear_without_session_id session_id (s : state) :
  PyStr.truthy_opt session_id = false ->
  clear_backend_history_route session_id s
  = Some ({| status := "error"; message := Some "session_id is required";
             http_code := 400 |}, s).
Proof.
  intros H. unfold clear_backend_history_route. rewrite H. reflexivity.
Qed.

(** X3.  [/clear-backend-history] with an empty or missing session id
    answers 400 with the message "session_id is required" without taking
    the lock: it returns whatever the state of the lock, and the globals are
    left as they were. *)
Theorem clear_backend_history_route_requires_session_id session_id (s : state) :
  PyStr.truthy_opt session_id = false ->
  clear_backend_history_route session_id s
  = Some ({| status := "error"; message := Some "session_id is required";
             http_code := 400 |}, s).
Proof.
  intros H. unfold clear_backend_history_route. rewrite H. reflexivity.
Qed.

Lemma clear_backend_history_route_requires_session_id_witness :
  clear_backend_history_route (Some "")
    {| st_store := st_store Scenario.after_first_turn; history_lock := true |}
  = Some ({| status := "error"; message := Some "session_id is required";
             http_code := 400 |},
          {| st_store := st_store Scenario.after_first_turn; history_lock := true |}).
Proof.
  apply (clear_backend_history_route_requires_session_id (Some "")
           {| st_store := st_store Scenario.after_first_turn; history_lock := true |}).
  reflexivity.
Defined.

(** ** What a block does to the globals *)

Lemma known_alloc st d sid : known (alloc d st).2 sid = known st sid.
Proof. reflexivity. Qed.

Lemma known_append_message st sid d sid' :
  known (append_message sid d st) sid' = known st sid' || bool_decide (sid = sid').
Proof.
  unfold append_message. pose proof (known_alloc st d sid') as Ha.
  destruct (alloc d st) as [l st1]. cbn [snd] in Ha.
  rewrite known_set_history, Ha. reflexivity.
Qed.

Lemma known_update_system_prompt st sid sp sid' :
  known st sid = true ->
  known (update_system_prompt sid sp st) sid' = known st sid'.
Proof.
  intros Hk. unfold update_system_prompt.
  assert (Hor : known st sid' || bool_decide (sid = sid') = known st sid').
  { destruct (decide (sid = sid')) as [<-|Hne].
    - rewrite Hk. reflexivity.
    - rewrite (bool_decide_eq_false_2 _ Hne). apply orb_false_r. }
  destruct (PyStr.truthy sp); [|reflexivity].
  pose proof (known_alloc st {| d_role := SYSTEM; d_content := sp |} sid') as Ha.
  destruct (history_refs st sid) as [|l0 rest].
  - destruct (alloc _ st) as [l st1]. cbn [snd] in Ha.
    rewrite known_set_history, Ha. exact Hor.
  - destruct (bool_decide (d_role (deref st l0) <> SYSTEM)).
    + destruct (alloc _ st) as [l st1]. cbn [snd] in Ha.
      rewrite known_set_history, Ha. exact Hor.
    + destruct (_ && _); reflexivity.
Qed.

Lemma known_committed st sid sp up full sid' :
  known st sid = true ->
  known (committed sid sp up full st) sid' = known st sid'.
Proof.
  intros Hk. unfold committed. rewrite !known_append_message.
  rewrite known_update_system_prompt by exact Hk.
  destruct (decide (sid = sid')) as [<-|Hne].
  - rewrite Hk. reflexivity.
  - rewrite (bool_decide_eq_false_2 _ Hne), !orb_false_r. reflexivity.
Qed.

Lemma known_initialized_other sid st sid' :
  known (initialized sid st) sid' = known st sid' || bool_decide (sid = sid').
Proof.
  unfold initialized. destruct (known st sid) eqn:Hk.
  - destruct (decide (sid = sid')) as [<-|Hne].
    + rewrite Hk. reflexivity.
    + rewrite (bool_decide_eq_false_2 _ Hne), orb_false_r. reflexivity.
  - apply known_set_history.
Qed.

(** The outcomes of a block that returns. *)
Lemma run_block_cases b s s' :
  run_block b s = Some (tt, s') ->
  (s' = s /\ exists o, b = Clear o /\ PyStr.truthy_opt o = false)
  \/ (history_lock s = false
      /\ exists st', s' = unlocked st'
         /\ match b with
            | Initialize sid => st' = initialized sid (st_store s)
            | Clear o =>
                PyStr.truthy_opt o = true
                /\ known (st_store s) (default "" o) = true
                /\ st' = set_history (default "" o) [] (st_store s)
            | Assemble sid sp => st' = (assemble_messages sid sp (st_store s)).2
            | Commit sid sp up full =>
                known (st_store s) sid = true
                /\ st' = committed sid sp up full (st_store s)
            end).
Proof.
  intros Hrun. destruct s as [st [|]].
  - left. destruct b as [sid|o|sid sp|sid sp up full];
      try (cbv in Hrun; discriminate).
    destruct (PyStr.truthy_opt o) eqn:Ht.
    + unfold run_block, bind, clear_backend_history_route in Hrun.
      rewrite Ht in Hrun. cbv in Hrun. discriminate.
    + unfold run_block, bind in Hrun.
      rewrite (clear_without_session_id _ _ Ht) in Hrun.
      injection Hrun as <-. split; [reflexivity | eauto].
  - change {| st_store := st; history_lock := false |} with (unlocked st) in *.
    destruct b as [sid|o|sid sp|sid sp up full]; simpl in Hrun.
    + right. unfold bind in Hrun. rewrite initialize_session_history_unlocked in Hrun.
      injection Hrun as <-. split; [reflexivity|]. eexists; split; reflexivity.
    + destruct (PyStr.truthy_opt o) eqn:Ht.
      * right. destruct o as [sid|]; [|discriminate]. simpl in Ht.
        destruct (known st sid) eqn:Hk; unfold bind in Hrun.
        -- rewrite clear_known in Hrun by assumption. injection Hrun as <-.
           split; [reflexivity|]. eexists; split; [reflexivity|].
           repeat split. exact Hk.
        -- rewrite clear_unknown in Hrun by assumption. discriminate.
      * left. unfold bind in Hrun.
        rewrite (clear_without_session_id _ _ Ht) in Hrun.
        injection Hrun as <-. split; [reflexivity | eauto].
    + right. unfold bind in Hrun. rewrite assemble_block_unlocked in Hrun.
      injection Hrun as <-. split; [reflexivity|]. eexists; split; reflexivity.
    + right. destruct (known st sid) eqn:Hk.
      * rewrite commit_exchange_known in Hrun by exact Hk. injection Hrun as <-.
        split; [reflexivity|]. eexists; split; [reflexivity|]. split; [exact Hk | reflexivity].
      * rewrite commit_exchange_unknown in Hrun by exact Hk. discriminate.
Qed.

(** X4.  No session is ever removed, and a block adds at most the session
    it names: after any block that returns, a session that was known is
    known, and a session that is known was known or is the one the block
    works on. *)
Theorem sessions_are_never_deleted b (s s' : state) :
  run_block b s = Some (tt, s') ->
  forall sid,
    (known (st_store s) sid = true -> known (st_store s') sid = true)
    /\ (known (st_store s') sid = true ->
        known (st_store s) sid = true \/ sid = block_session b).
Proof.
  intros Hrun sid.
  destruct (run_block_cases b s s' Hrun) as [[-> _] | [_ (st' & -> & Hb)]].
  - split; [tauto | left; assumption].
  - cbn [st_store unlocked].
    assert (Hor : forall sid0, known st' sid = known (st_store s) sid || bool_decide (sid0 = sid) ->
      (known (st_store s) sid = true -> known st' sid = true)
      /\ (known st' sid = true -> known (st_store s) sid = true \/ sid = sid0)).
    { intros sid0 ->. split.
      - intros ->. reflexivity.
      - intros H. apply orb_true_iff in H. destruct H as [H|H]; [left; exact H|].
        right. apply bool_decide_eq_true in H. congruence. }
    destruct b as [sid0|o|sid0 sp|sid0 sp up full]; cbn [block_session].
    + subst st'. apply Hor, known_initialized_other.
    + destruct Hb as (_ & _ & ->). apply Hor, known_set_history.
    + subst st'. rewrite known_assemble_messages. split; [tauto | left; assumption].
    + destruct Hb as (Hk & ->). rewrite known_committed by exact Hk.
      split; [tauto | left; assumption].
Qed.

Lemma sessions_are_never_deleted_witness :
  exists s',
    run_block (Clear (Some "s1")) Scenario.after_first_turn = Some (tt, s')
    /\ known (st_store s') "s1" = true.
Proof.
  eexists. split; [vm_compute; reflexivity|].
  apply (sessions_are_never_deleted (Clear (Some "s1")) Scenario.after_first_turn
           _ ltac:(vm_compute; reflexivity) "s1").
  vm_compute. reflexivity.
Defined.

(** X5.  A block and the lock.  A block that returns leaves [history_lock]
    as it found it, and a block started while the lock is held returns only
    if it is a clear without session id, which does not take the lock.  A
    block started while the lock is free does not always return: a clear
    with a session id the store does not know and a commit on a session the
    store does not know wait for ever for the lock they hold, which is then
    never released; every other block returns. *)
Theorem block_returns_or_keeps_the_lock b (s : state) :
  (forall s', run_block b s = Some (tt, s') ->
     history_lock s' = history_lock s
     /\ (history_lock s = true ->
         s' = s /\ exists o, b = Clear o /\ PyStr.truthy_opt o = false))
  /\ (history_lock s = false ->
      (run_block b s = None <->
       match b with
       | Initialize _ | Assemble _ _ => False
       | Clear o =>
           PyStr.truthy_opt o = true /\ known (st_store s) (default "" o) = false
       | Commit sid _ _ _ => known (st_store s) sid = false
       end)).
Proof.
  split.
  - intros s' Hrun.
    destruct (run_block_cases b s s' Hrun) as [[-> Ho] | [Hl (st' & -> & _)]].
    + split; [reflexivity | intros _; split; [reflexivity | exact Ho]].
    + split; [symmetry; exact Hl | rewrite Hl; discriminate].
  - intros Hl. rewrite (unlocked_eq s Hl).
    destruct b as [sid|o|sid sp|sid sp up full]; cbn [run_block st_store unlocked].
    + unfold bind. rewrite initialize_session_history_unlocked.
      split; [intros H; discriminate H | intros []].
    + destruct (PyStr.truthy_opt o) eqn:Ht.
      * destruct o as [sid|]; [|discriminate Ht].
        change (default "" (Some sid)) with sid.
        change (PyStr.truthy sid = true) in Ht.
        destruct (known (st_store s) sid) eqn:Hk; unfold bind.
        -- rewrite clear_known by assumption.
           split; [intros H; discriminate H | intros [_ H]; discriminate H].
        -- rewrite clear_unknown by assumption. split; [split|]; reflexivity.
      * unfold bind. rewrite (clear_without_session_id _ _ Ht).
        split; [intros H; discriminate H | intros [H _]; discriminate H].
    + unfold bind. rewrite assemble_block_unlocked.
      split; [intros H; discriminate H | intros []].
    + destruct (known (st_store s) sid) eqn:Hk.
      * rewrite commit_exchange_known by assumption.
        split; intros H; discriminate H.
      * rewrite commit_exchange_unknown by assumption. split; reflexivity.
Qed.

Lemma block_returns_or_keeps_the_lock_witness :
  (exists s',
     run_block (Commit "s1" "B" "again" "ok") Scenario.after_first_turn = Some (tt, s')
     /\ history_lock s' = false)
  /\ run_block (Commit "s2" "B" "again" "ok") Scenario.after_first_turn = None
  /\ run_block (Clear (Some "s2")) Scenario.after_first_turn = None.
Proof.
  split; [|split].
  - eexists. split; [vm_compute; reflexivity|].
    apply (proj1 (block_returns_or_keeps_the_lock
                    (Commit "s1" "B" "again" "ok") Scenario.after_first_turn)
             _ ltac:(vm_compute; reflexivity)).
  - apply (proj2 (block_returns_or_keeps_the_lock
                    (Commit "s2" "B" "again" "ok") Scenario.after_first_turn)
             eq_refl).
    vm_compute. reflexivity.
  - apply (proj2 (block_returns_or_keeps_the_lock
                    (Clear (Some "s2")) Scenario.after_first_turn)
             eq_refl).
    split; vm_compute; reflexivity.
Defined.

(** ** Requests that end without a stream *)

Lemma accepted_inv key groq payload :
  accepted key groq payload = true ->
  converts payload = true
  /\ PyStr.truthy_opt (p_session_id payload) = true
  /\ PyStr.truthy_opt (p_prompt payload) = true
  /\ PyStr.truthy_opt key = true
  /\ LlamaGroq groq (model_of payload) (default "" key) = None.
Proof.
  unfold accepted. rewrite !andb_true_iff, bool_decide_eq_true. tauto.
Qed.

(** X6.  A [/chat] request started while the lock is free, on a stream that
    ends (by exhaustion or by raising), returns and leaves the lock free,
    whatever the credential and the behaviour of the collaborator.  When
    [float(...)] accepts the temperature, nothing is raised out of the
    generator and its events are text chunks, the non-empty deltas of the
    stream in order, followed by one final event, the only final one.  When
    [float(...)] raises, the generator raises [OverflowError], yields no
    event and calls no collaborator. *)
Theorem chat_route_post_finishes key groq payload st :
  let r := chat_route_post key groq payload (unlocked st) in
  (exists s', final r = Some s' /\ history_lock s' = false)
  /\ if converts payload then
       raised r = None
       /\ exists texts terminal,
            events r = (TextChunk <$> texts) ++ [terminal]
            /\ is_final terminal = true
            /\ final_events (events r) = [terminal]
            /\ last (events r) = Some terminal
            /\ texts = match response_of groq r with
                       | Some resp => emitted (chunks resp)
                       | None => []
                       end
     else
       events r = [] /\ raised r = Some OverflowError /\ llm_call r = None.
Proof.
  intros r. destruct (chat_route_post_events key groq payload st) as [Hf Hev].
  fold r in Hf, Hev. split; [exact Hf|].
  destruct (converts payload); [|exact Hev].
  destruct Hev as (Hx & texts & terminal & He & Ht & Htexts).
  split; [exact Hx|]. exists texts, terminal.
  split; [exact He|]. split; [exact Ht|].
  split; [rewrite He; apply final_events_chunks, Ht|].
  split; [rewrite He; apply last_snoc | exact Htexts].
Qed.

(** X7.  A request whose temperature [float(...)] accepts, with a session
    id and a prompt, on a server without [GROQ_API_KEY] (unset or empty),
    yields the single final error "GROQ_API_KEY not configured on server.";
    the collaborator is not called and the generator leaves the globals as
    they were, lock included.  Through [/chat] the session is initialized
    and every transcript is as before. *)
Theorem missing_api_key key groq payload (s : state) :
  converts payload = true ->
  PyStr.truthy_opt (p_session_id payload) = true ->
  PyStr.truthy_opt (p_prompt payload) = true ->
  PyStr.truthy_opt key = false ->
  generate_chat_stream_with_session key groq payload s
  = {| events := [Error "GROQ_API_KEY not configured on server."];
       llm_call := None;
       final := Some s;
       raised := None |}
  /\ chat_route_post key groq payload (unlocked (st_store s))
     = {| events := [Error "GROQ_API_KEY not configured on server."];
          llm_call := None;
          final := Some (unlocked (initialized (session_of payload) (st_store s)));
          raised := None |}
  /\ forall sid,
       history (initialized (session_of payload) (st_store s)) sid
       = history (st_store s) sid.
Proof.
  intros Hc Hs Hp Hk.
  assert (Hg : forall s0, generate_chat_stream_with_session key groq payload s0
    = {| events := [Error "GROQ_API_KEY not configured on server."];
         llm_call := None; final := Some s0; raised := None |}).
  { intros s0. unfold converts in Hc. unfold generate_chat_stream_with_session.
    destruct (float (default (PyFloat default_temperature) (p_temperature payload)));
      [|discriminate].
    rewrite Hs, Hp, Hk. reflexivity. }
  split; [apply Hg|]. split.
  - rewrite chat_route_post_unlocked, Hs. apply Hg.
  - intros sid. apply history_initialized.
Qed.

Lemma missing_api_key_witness :
  chat_route_post (Some "") (Scenario.stub [Some "x"] Exhausted)
    (Scenario.request (Some "s1") (Some "hi") None) initial_state
  = {| events := [Error "GROQ_API_KEY not configured on server."];
       llm_call := None;
       final := Some (unlocked (initialized "s1" empty_store));
       raised := None |}.
Proof.
  apply (missing_api_key (Some "") (Scenario.stub [Some "x"] Exhausted)
           (Scenario.request (Some "s1") (Some "hi") None) initial_state);
    reflexivity.
Defined.

(** X8.  When the constructor of the client raises [e], a request whose
    temperature [float(...)] accepts and that passed the checks yields the
    single final error "LLM Error: " followed by [e]; no stream is asked of
    the collaborator, the lock is not taken and the globals are left as they
    were. *)
Theorem client_constructor_raises key groq payload (s : state) e :
  converts payload = true ->
  PyStr.truthy_opt (p_session_id payload) = true ->
  PyStr.truthy_opt (p_prompt payload) = true ->
  PyStr.truthy_opt key = true ->
  LlamaGroq groq (model_of payload) (default "" key) = Some e ->
  generate_chat_stream_with_session key groq payload s
  = {| events := [Error ("LLM Error: " +:+ e)];
       llm_call := None;
       final := Some s;
       raised := None |}.
Proof.
  intros Hc Hs Hp Hk Hg. unfold converts in Hc.
  unfold generate_chat_stream_with_session.
  destruct (float (default (PyFloat default_temperature) (p_temperature payload)));
    [|discriminate].
  rewrite Hs, Hp, Hk. cbn [negb]. fold (model_of payload). rewrite Hg. reflexivity.
Qed.

Lemma client_constructor_raises_witness :
  let groq := {| LlamaGroq := fun _ _ => Some "bad key";
                 stream_chat := fun _ _ _ => {| chunks := [Some "x"]; ending := Exhausted |} |} in
  let locked := {| st_store := st_store Scenario.after_first_turn; history_lock := true |} in
  generate_chat_stream_with_session Scenario.api_key groq
    (Scenario.request (Some "s1") (Some "hi") (Some "B")) locked
  = {| events := [Error "LLM Error: bad key"]; llm_call := None;
       final := Some locked; raised := None |}.
Proof.
  intros groq locked.
  apply (client_constructor_raises Scenario.api_key groq
           (Scenario.request (Some "s1") (Some "hi") (Some "B")) locked "bad key");
    reflexivity.
Defined.

(** The generator on its own: a run that called the collaborator was
    accepted, and the stream is the one of the store it started from. *)
Lemma generate_called key groq payload st resp :
  response_of groq
    (generate_chat_stream_with_session key groq payload (unlocked st)) = Some resp ->
  accepted key groq payload = true /\ resp = stream_of groq payload st.
Proof.
  intros Hresp. destruct (accepted key groq payload) eqn:Ha.
  - split; [reflexivity|].
    rewrite (generate_accepted _ _ _ _ Ha) in Hresp. cbv zeta in Hresp.
    unfold response_of in Hresp.
    destruct (ending (stream_of groq payload st));
      try destruct (known st (session_of payload));
      cbn [llm_call] in Hresp; injection Hresp as <-; reflexivity.
  - destruct (generate_not_accepted key groq payload (unlocked st) Ha)
      as (evs & exn & Hrun).
    rewrite Hrun in Hresp. discriminate.
Qed.

(** X9.  The generator run on its own, with the lock free, on a session the
    store does not know: when it calls the collaborator and the stream is
    exhausted, it yields the text chunks and then never returns, since the
    commit block calls [initialize_session_history] while it holds the
    lock.  No final event is yielded and nothing is stored.  [/chat] does
    not meet the case, since it initializes the session first. *)
Theorem generator_blocks_on_unknown_session key groq payload st resp :
  let r := generate_chat_stream_with_session key groq payload (unlocked st) in
  response_of groq r = Some resp ->
  ending resp = Exhausted ->
  known st (session_of payload) = false ->
  events r = TextChunk <$> emitted (chunks resp)
  /\ final_events (events r) = []
  /\ final r = None
  /\ raised r = None.
Proof.
  intros r Hresp He Hk. subst r.
  destruct (generate_called key groq payload st resp Hresp) as [Ha ->].
  rewrite (generate_accepted _ _ _ _ Ha). cbv zeta.
  rewrite He, Hk. cbn [events final raised blocked_run]. repeat split.
  unfold final_events.
  induction (emitted (chunks (stream_of groq payload st))) as [|t l IH]; [reflexivity|].
  cbn [fmap list_fmap]. rewrite filter_cons_False by discriminate. exact IH.
Qed.

Lemma generator_blocks_on_unknown_session_witness :
  let r := generate_chat_stream_with_session Scenario.api_key
             (Scenario.stub [Some "Hel"; Some "lo"] Exhausted)
             (Scenario.request (Some "s1") (Some "hi") None) initial_state in
  events r = [TextChunk "Hel"; TextChunk "lo"]
  /\ final_events (events r) = []
  /\ final r = None
  /\ raised r = None.
Proof.
  apply (generator_blocks_on_unknown_session Scenario.api_key
           (Scenario.stub [Some "Hel"; Some "lo"] Exhausted)
           (Scenario.request (Some "s1") (Some "hi") None) empty_store
           {| chunks := [Some "Hel"; Some "lo"]; ending := Exhausted |});
    reflexivity.
Defined.

(** ** Sessions do not share messages *)

Lemma fresh_not_held st sid :
  wf st -> fresh (dom (heap st)) ∉ history_refs st sid.
Proof.
  intros Hwf Hin. apply (allocated_not_fresh st _ (wf_refs st sid _ Hwf Hin)).
  reflexivity.
Qed.

Lemma isolated_set_history st sid (h : list nat) :
  isolated st ->
  (forall l sid', sid <> sid' -> l ∈ h -> l ∉ history_refs st sid') ->
  isolated (set_history sid h st).
Proof.
  intros Hiso Hh a b l Hab. rewrite !history_refs_set_history.
  destruct (decide (sid = a)) as [<-|Ha]; destruct (decide (sid = b)) as [<-|Hb].
  - contradiction.
  - intros Hl. apply (Hh l b Hb Hl).
  - intros Hl Hl'. apply (Hh l a Ha Hl' Hl).
  - apply Hiso, Hab.
Qed.

Lemma isolated_alloc st d : isolated st -> isolated (alloc d st).2.
Proof. intros H. exact H. Qed.

Lemma isolated_set_content st l c : isolated st -> isolated (set_content l c st).
Proof. intros H. exact H. Qed.

Lemma history_refs_append_message st sid d sid' :
  history_refs (append_message sid d st) sid'
  = if decide (sid = sid')
    then history_refs st sid ++ [fresh (dom (heap st))]
    else history_refs st sid'.
Proof.
  unfold append_message, alloc. rewrite history_refs_set_history. reflexivity.
Qed.

Lemma isolated_append_message st sid d :
  wf st -> isolated st -> isolated (append_message sid d st).
Proof.
  intros Hwf Hiso a b l Hab. rewrite !history_refs_append_message.
  destruct (decide (sid = a)) as [<-|Ha]; destruct (decide (sid = b)) as [<-|Hb].
  - contradiction.
  - intros Hl. apply elem_of_app in Hl. destruct Hl as [Hl|Hl].
    + apply (Hiso sid b l Hb Hl).
    + apply list_elem_of_singleton in Hl. subst l. apply fresh_not_held, Hwf.
  - intros Hl Hl'. apply elem_of_app in Hl'. destruct Hl' as [Hl'|Hl'].
    + apply (Hiso sid a l Ha Hl' Hl).
    + apply list_elem_of_singleton in Hl'. subst l.
      apply (fresh_not_held st a Hwf Hl).
  - apply Hiso, Hab.
Qed.

Lemma history_refs_update_system_prompt_ne st sid sp sid' :
  sid <> sid' ->
  history_refs (update_system_prompt sid sp st) sid' = history_refs st sid'.
Proof.
  intros Hne. unfold update_system_prompt.
  destruct (PyStr.truthy sp); [|reflexivity].
  destruct (history_refs st sid) as [|l0 rest].
  - unfold alloc. rewrite history_refs_set_history.
    destruct (decide (sid = sid')); [contradiction | reflexivity].
  - destruct (bool_decide (d_role (deref st l0) <> SYSTEM)).
    + unfold alloc. rewrite history_refs_set_history.
      destruct (decide (sid = sid')); [contradiction | reflexivity].
    + destruct (_ && _); reflexivity.
Qed.

Lemma history_refs_update_system_prompt st sid sp l :
  l ∈ history_refs (update_system_prompt sid sp st) sid ->
  l ∈ history_refs st sid \/ l = fresh (dom (heap st)).
Proof.
  unfold update_system_prompt.
  destruct (PyStr.truthy sp); [|tauto].
  destruct (history_refs st sid) as [|l0 rest] eqn:E.
  - unfold alloc. rewrite history_refs_set_history.
    destruct (decide (sid = sid)); [|contradiction].
    intros H. apply list_elem_of_singleton in H. right. exact H.
  - destruct (bool_decide (d_role (deref st l0) <> SYSTEM)).
    + unfold alloc. rewrite history_refs_set_history.
      destruct (decide (sid = sid)); [|contradiction].
      intros H. apply elem_of_cons in H. destruct H as [H|H]; [right; exact H | left; exact H].
    + destruct (_ && _).
      * rewrite history_refs_set_content, E. tauto.
      * rewrite E. tauto.
Qed.

Lemma isolated_update_system_prompt st sid sp :
  wf st -> isolated st -> isolated (update_system_prompt sid sp st).
Proof.
  intros Hwf Hiso a b l Hab Hl Hl'.
  destruct (decide (sid = a)) as [<-|Ha]; destruct (decide (sid = b)) as [<-|Hb].
  - contradiction.
  - rewrite history_refs_update_system_prompt_ne in Hl' by exact Hb.
    apply history_refs_update_system_prompt in Hl. destruct Hl as [Hl| ->].
    + apply (Hiso sid b l Hb Hl Hl').
    + apply (fresh_not_held st b Hwf Hl').
  - rewrite history_refs_update_system_prompt_ne in Hl by exact Ha.
    apply history_refs_update_system_prompt in Hl'. destruct Hl' as [Hl'| ->].
    + apply (Hiso sid a l Ha Hl' Hl).
    + apply (fresh_not_held st a Hwf Hl).
  - rewrite history_refs_update_system_prompt_ne in Hl by exact Ha.
    rewrite history_refs_update_system_prompt_ne in Hl' by exact Hb.
    apply (Hiso a b l Hab Hl Hl').
Qed.

Lemma isolated_committed st sid sp up full :
  wf st -> isolated st -> isolated (committed sid sp up full st).
Proof.
  intros Hwf Hiso. unfold committed.
  apply isolated_append_message;
    [apply wf_append_message, wf_update_system_prompt, Hwf|].
  apply isolated_append_message; [apply wf_update_system_prompt, Hwf|].
  apply isolated_update_system_prompt; assumption.
Qed.

Lemma history_refs_assemble_messages st sid sp sid' :
  history_refs (assemble_messages sid sp st).2 sid' = history_refs st sid'.
Proof.
  rewrite assemble_messages_store. unfold handle_system_prompt.
  destruct (PyStr.truthy sp); [|reflexivity].
  destruct (history_refs st sid) as [|l0 rest]; [reflexivity|].
  destruct (bool_decide (d_role (deref st l0) <> SYSTEM)); [reflexivity|].
  destruct (_ && _); reflexivity.
Qed.

Lemma isolated_assemble_messages st sid sp :
  isolated st -> isolated (assemble_messages sid sp st).2.
Proof.
  intros Hiso a b l Hab. rewrite !history_refs_assemble_messages. apply Hiso, Hab.
Qed.

Lemma history_set_content_ne st sid sid' c l0 :
  isolated st -> sid <> sid' -> l0 ∈ history_refs st sid ->
  history (set_content l0 c st) sid' = history st sid'.
Proof.
  intros Hiso Hne Hl. unfold history. rewrite history_refs_set_content.
  apply fmap_deref_set_content. apply (Hiso sid sid' l0 Hne Hl).
Qed.

Lemma history_assemble_messages_ne st sid sp sid' :
  isolated st -> sid <> sid' ->
  history (assemble_messages sid sp st).2 sid' = history st sid'.
Proof.
  intros Hiso Hne. rewrite assemble_messages_store. unfold handle_system_prompt.
  destruct (PyStr.truthy sp); [|reflexivity].
  destruct (history_refs st sid) as [|l0 rest] eqn:E; [reflexivity|].
  destruct (bool_decide (d_role (deref st l0) <> SYSTEM)); [reflexivity|].
  destruct (_ && _); [|reflexivity]. cbn [snd].
  apply (history_set_content_ne st sid sid'); [assumption..|].
  rewrite E. apply list_elem_of_here.
Qed.

Lemma history_update_system_prompt_ne st sid sp sid' :
  wf st -> isolated st -> sid <> sid' ->
  history (update_system_prompt sid sp st) sid' = history st sid'.
Proof.
  intros Hwf Hiso Hne. unfold update_system_prompt.
  destruct (PyStr.truthy sp); [|reflexivity].
  pose proof (history_alloc st {| d_role := SYSTEM; d_content := sp |} sid' Hwf) as Ha.
  destruct (history_refs st sid) as [|l0 rest] eqn:E.
  - destruct (alloc _ st) as [l st1]. cbn [snd] in Ha.
    rewrite history_set_history_ne by exact Hne. exact Ha.
  - destruct (bool_decide (d_role (deref st l0) <> SYSTEM)).
    + destruct (alloc _ st) as [l st1]. cbn [snd] in Ha.
      rewrite history_set_history_ne by exact Hne. exact Ha.
    + destruct (_ && _); [|reflexivity].
      apply (history_set_content_ne st sid sid'); [assumption..|].
      rewrite E. apply list_elem_of_here.
Qed.

Lemma history_committed_ne st sid sp up full sid' :
  wf st -> isolated st -> sid <> sid' ->
  history (committed sid sp up full st) sid' = history st sid'.
Proof.
  intros Hwf Hiso Hne. unfold committed.
  rewrite history_append_message_ne;
    [|apply wf_append_message, wf_update_system_prompt, Hwf | exact Hne].
  rewrite history_append_message_ne;
    [|apply wf_update_system_prompt, Hwf | exact Hne].
  apply history_update_system_prompt_ne; assumption.
Qed.

(** ** Complete exchanges *)

Lemma exchanges_snoc t u a :
  exchanges t ->
  exchanges (t ++ [ {| d_role := USER; d_content := u |};
                    {| d_role := ASSISTANT; d_content := a |} ]).
Proof.
  induction 1 as [|u0 a0 t _ IH]; simpl.
  - apply exchanges_cons, exchanges_nil.
  - apply exchanges_cons, IH.
Qed.

Lemma exchanges_head t d rest :
  exchanges t -> t = d :: rest -> d_role d = USER.
Proof. intros H E. destruct H; [discriminate|]. injection E as <- _. reflexivity. Qed.

Lemma shaped_exchange t u a :
  shaped t ->
  shaped (t ++ [ {| d_role := USER; d_content := u |};
                 {| d_role := ASSISTANT; d_content := a |} ]).
Proof.
  intros [H | (c & t' & -> & Hc & H)].
  - left. apply exchanges_snoc, H.
  - right. exists c, (t' ++ [ {| d_role := USER; d_content := u |};
                              {| d_role := ASSISTANT; d_content := a |} ]).
    split; [reflexivity|]. split; [exact Hc | apply exchanges_snoc, H].
Qed.

Lemma shaped_upsert sp t : shaped t -> shaped (upsert_system sp t).
Proof.
  intros Hs. unfold upsert_system.
  destruct (PyStr.truthy sp) eqn:Ht; [|exact Hs].
  apply truthy_nonempty in Ht.
  destruct t as [|d rest].
  - right. exists sp, []. repeat split; [exact Ht | apply exchanges_nil].
  - destruct (bool_decide (d_role d <> SYSTEM)) eqn:Hb.
    + apply bool_decide_eq_true in Hb. right. exists sp, (d :: rest).
      split; [reflexivity|]. split; [exact Ht|].
      destruct Hs as [H | (c & t' & E & _)]; [exact H|].
      injection E as -> _. contradiction Hb. reflexivity.
    + apply bool_decide_eq_false in Hb. apply dec_stable in Hb.
      right. exists sp, rest. split; [reflexivity|]. split; [exact Ht|].
      destruct Hs as [H | (c & t' & E & _ & H)].
      * rewrite (exchanges_head _ _ _ H eq_refl) in Hb. discriminate.
      * injection E as _ ->. exact H.
Qed.

Lemma shaped_overwritten sp t : shaped t -> shaped (overwritten_system sp t).
Proof.
  intros Hs. unfold overwritten_system.
  destruct (PyStr.truthy sp) eqn:Ht; [|exact Hs].
  apply truthy_nonempty in Ht.
  destruct t as [|d rest]; [exact Hs|].
  destruct (bool_decide (d_role d <> SYSTEM)) eqn:Hb; [exact Hs|].
  apply bool_decide_eq_false in Hb. apply dec_stable in Hb.
  right. exists sp, rest. split; [reflexivity|]. split; [exact Ht|].
  destruct Hs as [H | (c & t' & E & _ & H)].
  - rewrite (exchanges_head _ _ _ H eq_refl) in Hb. discriminate.
  - injection E as _ ->. exact H.
Qed.

Lemma history_unknown st sid : known st sid = false -> history st sid = [].
Proof.
  intros Hk. apply known_false in Hk. unfold history, history_refs.
  rewrite Hk. reflexivity.
Qed.

(** In a reachable state no two sessions share a dict object and every
    transcript is made of complete exchanges after an optional system
    message. *)
Lemma reachable_isolated_shaped s :
  reachable s ->
  isolated (st_store s) /\ forall sid, shaped (history (st_store s) sid).
Proof.
  induction 1 as [|b s s' Hr [Hiso Hsh] Hrun].
  - split.
    + intros a b l _ Hl. apply elem_of_nil in Hl. contradiction.
    + intros sid. left. apply exchanges_nil.
  - destruct (reachable_inv s Hr) as [st [-> [Hwf Hsof]]].
    cbn [st_store unlocked] in *.
    destruct (run_block_cases b _ s' Hrun) as [[-> _] | [_ (st' & -> & Hb)]];
      [split; assumption|].
    cbn [st_store unlocked] in *.
    destruct b as [sid0|o|sid0 sp|sid0 sp up full].
    + subst st'. split.
      * intros a b l Hab. rewrite !history_refs_initialized. apply Hiso, Hab.
      * intros sid. rewrite history_initialized. apply Hsh.
    + destruct Hb as (_ & _ & ->). split.
      * apply isolated_set_history; [exact Hiso|].
        intros l sid' _ Hl. apply elem_of_nil in Hl. contradiction.
      * intros sid. destruct (decide (default "" o = sid)) as [<-|Hne].
        -- rewrite history_set_history. left. apply exchanges_nil.
        -- rewrite history_set_history_ne by exact Hne. apply Hsh.
    + subst st'. split; [apply isolated_assemble_messages, Hiso|].
      intros sid. destruct (decide (sid0 = sid)) as [<-|Hne].
      * rewrite assemble_messages_history by apply Hsof.
        apply shaped_overwritten, Hsh.
      * rewrite history_assemble_messages_ne by assumption. apply Hsh.
    + destruct Hb as (Hk & ->). split; [apply isolated_committed; assumption|].
      intros sid. destruct (decide (sid0 = sid)) as [<-|Hne].
      * rewrite history_committed by (try apply Hsof; exact Hwf).
        apply shaped_exchange, shaped_upsert, Hsh.
      * rewrite history_committed_ne by assumption. apply Hsh.
Qed.

(** X10.  Every stored transcript, in every reachable state, is a sequence
    of complete exchanges (a user message followed by an assistant message),
    after at most one system message, whose content is not empty: a user
    message never stays without its answer and no exchange is stored in
    part, whatever the interleaving of the requests. *)
Theorem transcripts_hold_complete_exchanges (s : state) sid :
  reachable s ->
  exists sys pairs,
    history (st_store s) sid
    = sys ++ flat_map (fun '(u, a) => [ {| d_role := USER; d_content := u |};
                                        {| d_role := ASSISTANT; d_content := a |} ])
               pairs
    /\ (sys = [] \/ exists c, c <> "" /\ sys = [{| d_role := SYSTEM; d_content := c |}]).
Proof.
  intros Hr. destruct (reachable_isolated_shaped s Hr) as [_ Hsh].
  assert (Hex : forall t, exchanges t ->
    exists pairs, t = flat_map (fun '(u, a) =>
      [ {| d_role := USER; d_content := u |};
        {| d_role := ASSISTANT; d_content := a |} ]) pairs).
  { induction 1 as [|u a t _ [pairs ->]].
    - exists []. reflexivity.
    - exists ((u, a) :: pairs). reflexivity. }
  destruct (Hsh sid) as [H | (c & t' & -> & Hc & H)].
  - destruct (Hex _ H) as [pairs ->]. exists [], pairs. split; [reflexivity | left; reflexivity].
  - destruct (Hex _ H) as [pairs ->].
    exists [{| d_role := SYSTEM; d_content := c |}], pairs.
    split; [reflexivity | right; exists c; split; [exact Hc | reflexivity]].
Qed.

Lemma transcripts_hold_complete_exchanges_witness :
  exists sys pairs,
    history (st_store Scenario.after_first_turn) "s1"
    = sys ++ flat_map (fun '(u, a) => [ {| d_role := USER; d_content := u |};
                                        {| d_role := ASSISTANT; d_content := a |} ])
               pairs
    /\ (sys = [] \/ exists c, c <> "" /\ sys = [{| d_role := SYSTEM; d_content := c |}]).
Proof.
  apply (transcripts_hold_complete_exchanges Scenario.after_first_turn "s1"
           after_first_turn_reachable).
Defined.

(** X11.  Sessions are isolated: from a reachable state, a block that
    returns leaves the transcript of every session other than the one it
    works on as it was, and so does a whole [/chat] request. *)
Theorem other_sessions_are_untouched (s : state) :
  reachable s ->
  (forall b s', run_block b s = Some (tt, s') ->
     forall sid, sid <> block_session b ->
       history (st_store s') sid = history (st_store s) sid)
  /\ (forall key groq payload s',
        final (chat_route_post key groq payload s) = Some s' ->
        forall sid, sid <> session_of payload ->
          history (st_store s') sid = history (st_store s) sid).
Proof.
  intros Hr.
  assert (Hblock : forall s0, reachable s0 -> forall b s',
    run_block b s0 = Some (tt, s') ->
    forall sid, sid <> block_session b ->
      history (st_store s') sid = history (st_store s0) sid).
  { intros s0 Hr0 b s' Hrun sid Hne.
    destruct (reachable_isolated_shaped s0 Hr0) as [Hiso _].
    destruct (reachable_inv s0 Hr0) as [st [-> [Hwf _]]].
    cbn [st_store unlocked] in *.
    destruct (run_block_cases b _ s' Hrun) as [[-> _] | [_ (st' & -> & Hb)]];
      [reflexivity|].
    cbn [st_store unlocked] in *.
    destruct b as [sid0|o|sid0 sp|sid0 sp up full]; cbn [block_session] in Hne.
    - subst st'. apply history_initialized.
    - destruct Hb as (_ & _ & ->). apply history_set_history_ne. congruence.
    - subst st'. apply history_assemble_messages_ne; [exact Hiso | congruence].
    - destruct Hb as (_ & ->). apply history_committed_ne; [assumption.. | congruence]. }
  split; [exact (Hblock s Hr)|].
  intros key groq payload s' Hf sid Hne.
  destruct (reachable_isolated_shaped s Hr) as [Hiso _].
  destruct (reachable_inv s Hr) as [st [-> [Hwf Hsof]]].
  cbn [st_store unlocked] in *.
  destruct (accepted key groq payload) eqn:Ha.
  - destruct (chat_route_post_entry key groq payload st)
      as (st0 & Hrun & Hk & Hh & Hi & _).
    rewrite Hrun, (generate_accepted _ _ _ _ Ha) in Hf. cbv zeta in Hf.
    rewrite (Hk (accepted_session _ _ _ Ha)) in Hf.
    specialize (Hi (accepted_session _ _ _ Ha)).
    assert (Hiso0 : isolated st0).
    { subst st0. intros a b l Hab. rewrite !history_refs_initialized. apply Hiso, Hab. }
    assert (Hwf0 : wf st0) by (subst st0; apply inv_initialized; split; assumption).
    rewrite <- Hh.
    destruct (ending (stream_of groq payload st0)); injection Hf as <-;
      cbn [st_store unlocked]; unfold before_stream.
    + rewrite history_committed_ne;
        [| apply wf_assemble_messages, Hwf0
         | apply isolated_assemble_messages, Hiso0 | congruence].
      apply history_assemble_messages_ne; [exact Hiso0 | congruence].
    + apply history_assemble_messages_ne; [exact Hiso0 | congruence].
  - destruct (chat_route_post_entry key groq payload st)
      as (st0 & Hrun & _ & Hh & _).
    destruct (generate_not_accepted key groq payload (unlocked st0) Ha)
      as (evs & exn & Hm).
    rewrite Hrun, Hm in Hf. injection Hf as <-. apply Hh.
Qed.

Lemma other_sessions_are_untouched_witness :
  let payload := Scenario.request (Some "s2") (Some "hello") (Some "C") in
  let groq := Scenario.stub [Some "yes"] Exhausted in
  exists s',
    final (chat_route_post Scenario.api_key groq payload Scenario.after_first_turn)
    = Some s'
    /\ history (st_store s') "s1" = history (st_store Scenario.after_first_turn) "s1".
Proof.
  intros payload groq. eexists. split; [vm_compute; reflexivity|].
  apply (proj2 (other_sessions_are_untouched Scenario.after_first_turn
                  after_first_turn_reachable)
           Scenario.api_key groq payload _ ltac:(vm_compute; reflexivity) "s1").
  discriminate.
Defined.

(** ** What a request sends and stores, in general *)

Lemma assembled_filter sp t :
  system_only_first t ->
  assembled sp t
  = (if PyStr.truthy sp then [system_message sp] else [])
    ++ (to_chat_message <$>
          (if PyStr.truthy sp then filter (fun d => d_role d <> SYSTEM) t else t)).
Proof.
  intros Hsof. unfold assembled. destruct (PyStr.truthy sp); [|reflexivity].
  simpl. f_equal. f_equal.
  destruct t as [|d rest]; [reflexivity|].
  assert (Hrest : filter (fun d => d_role d <> SYSTEM) rest = rest).
  { unfold system_only_first in Hsof. simpl in Hsof.
    induction Hsof as [|x l Hx _ IH]; [reflexivity|].
    rewrite filter_cons_True by exact Hx. rewrite IH. reflexivity. }
  destruct (bool_decide (d_role d <> SYSTEM)) eqn:Hb.
  - apply bool_decide_eq_true in Hb. rewrite filter_cons_True by exact Hb.
    rewrite Hrest. reflexivity.
  - apply bool_decide_eq_false in Hb. rewrite filter_cons_False by exact Hb.
    rewrite Hrest. reflexivity.
Qed.

(** X12.  The call a request makes to the collaborator, from a reachable
    state.  The list sent is: with a non-blank system prompt, the system
    message of that prompt followed by every stored message that is not a
    system message; with a blank one, the stored transcript as it is; in
    both cases in stored order and followed by the user message.  The list
    holds a system message at index 0 or nowhere.  It goes with the model of
    the payload, or [llama3-8b-8192], and with the value [float(...)] gave
    for the temperature of the payload, or for 0.7: the call is made only
    when that conversion returned. *)
Theorem outgoing_messages key groq payload (s : state)
    model_id messages_for_llm temperature :
  reachable s ->
  let r := chat_route_post key groq payload s in
  llm_call r = Some (model_id, messages_for_llm, temperature) ->
  let t := history (st_store s) (session_of payload) in
  let sp := system_prompt_of payload in
  let sent :=
    (if PyStr.truthy sp then [{| role := SYSTEM; content := sp |}] else [])
    ++ (to_chat_message <$>
          (if PyStr.truthy sp then filter (fun d => d_role d <> SYSTEM) t else t))
    ++ [{| role := USER; content := prompt_of payload |}] in
  model_id = default "llama3-8b-8192" (p_model_id payload)
  /\ messages_for_llm = sent
  /\ float (default (PyFloat default_temperature) (p_temperature payload))
     = Ok temperature
  /\ (forall i m, sent !! i = Some m -> role m = SYSTEM -> i = 0).
Proof.
  intros Hr r Hcall t sp sent.
  assert (Hresp : response_of groq r
                  = Some (stream_chat groq model_id messages_for_llm temperature)).
  { unfold response_of. rewrite Hcall. reflexivity. }
  destruct (chat_route_post_called key groq payload s _ Hr Hresp)
    as (Ha & st0 & [Hwf Hsof] & Hh & _ & Hrun).
  assert (Hsoft : system_only_first t) by (subst t; rewrite <- Hh; apply Hsof).
  assert (Hout : outgoing payload st0 = sent).
  { unfold outgoing. rewrite assemble_messages_list by apply Hsof.
    rewrite Hh. fold t sp. rewrite (assembled_filter sp t Hsoft).
    subst sent. rewrite <- app_assoc. reflexivity. }
  assert (Hcall' : llm_call r
                   = Some (model_of payload, outgoing payload st0,
                           temperature_of payload)).
  { subst r. rewrite Hrun. cbv zeta.
    destruct (ending (stream_chat groq model_id messages_for_llm temperature));
      reflexivity. }
  rewrite Hcall' in Hcall. injection Hcall as <- <- <-.
  split; [reflexivity|]. split; [exact Hout|]. split.
  - apply accepted_converts in Ha. unfold converts in Ha. unfold temperature_of.
    destruct (float (default (PyFloat default_temperature) (p_temperature payload)));
      [reflexivity | discriminate Ha].
  - intros i m Hi Hm. subst sent.
    destruct (PyStr.truthy sp).
    + destruct i as [|i]; [reflexivity|]. exfalso. simpl in Hi.
      apply lookup_app_Some in Hi. destruct Hi as [Hi | [_ Hi]].
      * apply list_lookup_fmap_Some in Hi. destruct Hi as (d & -> & Hd).
        apply list_elem_of_lookup_2, list_elem_of_filter in Hd.
        destruct Hd as [Hd _]. apply Hd. exact Hm.
      * apply list_lookup_singleton_Some in Hi. destruct Hi as [_ <-]. discriminate.
    + simpl in Hi. apply lookup_app_Some in Hi. destruct Hi as [Hi | [_ Hi]].
      * apply list_lookup_fmap_Some in Hi. destruct Hi as (d & -> & Hd).
        apply (proj1 (system_only_first_lookup t) Hsoft i d Hd Hm).
      * apply list_lookup_singleton_Some in Hi. destruct Hi as [_ <-]. discriminate.
Qed.

Lemma outgoing_messages_witness :
  let payload := Scenario.with_temperature
                   (Scenario.request (Some "s1") (Some "again") (Some "A"))
                   (PyInt (2 ^ 53 + 1)) in
  let r := chat_route_post Scenario.api_key (Scenario.stub [Some "ok"] Exhausted)
             payload Scenario.after_first_turn in
  llm_call r
  = Some ("llama3-8b-8192",
          [ {| role := SYSTEM; content := "A" |};
            {| role := USER; content := "hi" |};
            {| role := ASSISTANT; content := "Hello" |};
            {| role := USER; content := "again" |} ],
          Finite (inject_Z (2 ^ 53)))
  /\ float (PyInt (2 ^ 53 + 1)) = Ok (Finite (inject_Z (2 ^ 53))).
Proof.
  intros payload r.
  assert (Hcall : llm_call r
          = Some ("llama3-8b-8192",
                  [ {| role := SYSTEM; content := "A" |};
                    {| role := USER; content := "hi" |};
                    {| role := ASSISTANT; content := "Hello" |};
                    {| role := USER; content := "again" |} ],
                  Finite (inject_Z (2 ^ 53)))) by (vm_compute; reflexivity).
  split; [exact Hcall|].
  exact (proj1 (proj2 (proj2
           (outgoing_messages Scenario.api_key (Scenario.stub [Some "ok"] Exhausted)
              payload Scenario.after_first_turn _ _ _
              after_first_turn_reachable Hcall)))).
Defined.

Lemma upsert_overwritten sp t :
  upsert_system sp (overwritten_system sp t) = upsert_system sp t.
Proof.
  unfold upsert_system, overwritten_system.
  destruct (PyStr.truthy sp); [|reflexivity].
  destruct t as [|d rest]; [reflexivity|].
  destruct (bool_decide (d_role d <> SYSTEM)) eqn:Hb; [rewrite Hb; reflexivity|].
  head_is_system. reflexivity.
Qed.

(** X13.  The transcript after a successful request, from a reachable
    state: the stored messages in place, with the system message of a
    non-blank prompt at index 0 (put in front when the transcript had none
    there, in place of the one it had otherwise, so never twice), then the
    user message, then the assistant message with the whole response. *)
Theorem successful_request_transcript key groq payload (s : state) resp :
  reachable s ->
  let r := chat_route_post key groq payload s in
  response_of groq r = Some resp ->
  ending resp = Exhausted ->
  let t := history (st_store s) (session_of payload) in
  let sp := system_prompt_of payload in
  let sys := {| d_role := SYSTEM; d_content := sp |} in
  exists s',
    final r = Some s'
    /\ history (st_store s') (session_of payload)
       = (if PyStr.truthy sp then
            match t with
            | [] => [sys]
            | d :: rest => if bool_decide (d_role d <> SYSTEM) then sys :: t else sys :: rest
            end
          else t)
         ++ [ {| d_role := USER; d_content := prompt_of payload |};
              {| d_role := ASSISTANT;
                 d_content := PyStr.concat (delta_text <$> chunks resp) |} ].
Proof.
  intros Hr r Hresp He t sp sys.
  destruct (accepted key groq payload) eqn:Ha.
  - destruct (chat_route_post_accepted key groq payload s Hr Ha)
      as (st0 & Hinv & Hh & Hrun).
    subst r. rewrite Hrun in *. cbv zeta in *.
    assert (resp = stream_of groq payload st0) as ->.
    { unfold response_of in Hresp.
      destruct (ending (stream_of groq payload st0));
        cbn [llm_call] in Hresp; injection Hresp as <-; reflexivity. }
    rewrite He. eexists. split; [reflexivity|]. cbn [st_store unlocked].
    destruct (inv_assemble_messages st0 (session_of payload)
                (system_prompt_of payload) Hinv) as [Hwf1 Hsof1].
    destruct Hinv as [Hwf Hsof].
    unfold before_stream.
    rewrite history_committed by (try apply Hsof1; exact Hwf1).
    rewrite assemble_messages_history by apply Hsof.
    rewrite upsert_overwritten, Hh, <- concat_emitted. fold t sp.
    unfold upsert_system. fold sys.
    destruct (PyStr.truthy sp); [|reflexivity].
    destruct t as [|d rest]; [reflexivity|].
    destruct (bool_decide (d_role d <> SYSTEM)); reflexivity.
  - destruct (reachable_inv s Hr) as [st [-> _]].
    subst r. unfold response_of in Hresp.
    rewrite (chat_route_post_rejected _ _ _ _ Ha) in Hresp. discriminate.
Qed.

Lemma successful_request_transcript_witness :
  let groq := Scenario.stub [Some "ok"] Exhausted in
  let payload := Scenario.request (Some "s1") (Some "again") (Some "A") in
  exists s',
    final (chat_route_post Scenario.api_key groq payload Scenario.after_first_turn)
    = Some s'
    /\ history (st_store s') "s1"
       = [ {| d_role := SYSTEM; d_content := "A" |};
           {| d_role := USER; d_content := "hi" |};
           {| d_role := ASSISTANT; d_content := "Hello" |};
           {| d_role := USER; d_content := "again" |};
           {| d_role := ASSISTANT; d_content := "ok" |} ].
Proof.
  intros groq payload.
  apply (successful_request_transcript Scenario.api_key groq payload
           Scenario.after_first_turn
           {| chunks := [Some "ok"]; ending := Exhausted |}
           after_first_turn_reachable eq_refl eq_refl).
Defined.

(** X14.  A request whose stream raises stores no user message and no
    assistant message: the transcript keeps its length, the role of every
    message and every message after the first.  It differs from the
    transcript before the request only when that one starts with a system
    message and the request carries a non-blank system prompt other than its
    content, which is then the content of the first message. *)
Theorem failed_stream_stores_no_message key groq payload (s : state) resp e :
  reachable s ->
  let r := chat_route_post key groq payload s in
  response_of groq r = Some resp ->
  ending resp = Raised e ->
  let t := history (st_store s) (session_of payload) in
  let sp := system_prompt_of payload in
  exists s',
    final r = Some s'
    /\ history_lock s' = false
    /\ length (history (st_store s') (session_of payload)) = length t
    /\ d_role <$> history (st_store s') (session_of payload) = d_role <$> t
    /\ tail (history (st_store s') (session_of payload)) = tail t
    /\ (history (st_store s') (session_of payload) = t
        \/ exists A,
             head t = Some {| d_role := SYSTEM; d_content := A |}
             /\ sp <> "" /\ A <> sp
             /\ head (history (st_store s') (session_of payload))
                = Some {| d_role := SYSTEM; d_content := sp |}).
Proof.
  intros Hr r Hresp He t sp.
  assert (Hlock : forall s', final r = Some s' -> history_lock s' = false).
  { intros s' Hf.
    destruct (reachable_inv _ (chat_route_post_reachable _ _ _ _ _ Hr Hf))
      as [st' [-> _]]. reflexivity. }
  destruct (failed_stream_history key groq payload s resp e Hr Hresp He)
    as (s' & Hf & Hh).
  exists s'. split; [exact Hf|]. split; [apply Hlock, Hf|].
  fold r in Hf. rewrite Hh. fold t sp. unfold overwritten_system.
  destruct (PyStr.truthy sp) eqn:Ht; [|repeat split; left; reflexivity].
  destruct t as [|d rest]; [repeat split; left; reflexivity|].
  destruct (bool_decide (d_role d <> SYSTEM)) eqn:Hb;
    [repeat split; left; reflexivity|].
  apply bool_decide_eq_false in Hb. apply dec_stable in Hb.
  repeat split.
  - simpl. rewrite Hb. reflexivity.
  - destruct (decide (d_content d = sp)) as [Hc|Hc].
    + left. f_equal. rewrite <- Hb, <- Hc. apply msg_dict_eta.
    + right. exists (d_content d). simpl. rewrite <- Hb.
      rewrite msg_dict_eta. rewrite Hb.
      repeat split; [apply truthy_nonempty, Ht | exact Hc].
Qed.

Lemma failed_stream_stores_no_message_witness :
  exists s',
    final Scenario.failed_turn = Some s'
    /\ length (history (st_store s') "s1") = 3
    /\ tail (history (st_store s') "s1")
       = [ {| d_role := USER; d_content := "hi" |};
           {| d_role := ASSISTANT; d_content := "Hello" |} ].
Proof.
  destruct (failed_stream_stores_no_message Scenario.api_key
              (Scenario.stub [Some "par"] (Raised "boom"))
              (Scenario.request (Some "s1") (Some "again") (Some "B"))
              Scenario.after_first_turn
              {| chunks := [Some "par"]; ending := Raised "boom" |} "boom"
              after_first_turn_reachable eq_refl eq_refl)
    as (s' & Hf & _ & Hlen & _ & Htail & _).
  exists s'. split; [exact Hf|]. split; [exact Hlen | exact Htail].
Defined.

(** X15.  The commit works on the transcript stored when it runs, not on
    the copy read in the first block: when the session is cleared between
    the two blocks of a request, the commit returns and the transcript is
    the system message of a non-blank prompt, the user message and the
    assistant message, and nothing else. *)
Theorem commit_after_clear (s : state) sid sp up full :
  reachable s ->
  known (st_store s) sid = true ->
  sid <> "" ->
  exists messages_for_llm s1 response s2 s3,
    assemble_block sid sp s = Some (messages_for_llm, s1)
    /\ clear_backend_history_route (Some sid) s1 = Some (response, s2)
    /\ commit_exchange sid sp up full s2 = Some (tt, s3)
    /\ history (st_store s3) sid
       = (if PyStr.truthy sp then [{| d_role := SYSTEM; d_content := sp |}] else [])
         ++ [ {| d_role := USER; d_content := up |};
              {| d_role := ASSISTANT; d_content := full |} ].
Proof.
  intros Hr Hk Hne. destruct (reachable_inv s Hr) as [st [-> Hinv]].
  cbn [st_store unlocked] in Hk. apply truthy_nonempty in Hne.
  pose proof (inv_assemble_messages st sid sp Hinv) as Hinv1.
  pose proof (inv_set_history_nil _ sid Hinv1) as [Hwf2 Hsof2].
  eexists _, _, _, _, _.
  split; [apply assemble_block_unlocked|].
  split; [apply clear_known; [exact Hne | rewrite known_assemble_messages; exact Hk]|].
  split.
  - apply commit_exchange_known.
    rewrite known_set_history, bool_decide_eq_true_2 by reflexivity. apply orb_true_r.
  - cbn [st_store unlocked].
    rewrite history_committed by (try apply Hsof2; exact Hwf2).
    rewrite history_set_history. unfold upsert_system.
    destruct (PyStr.truthy sp); reflexivity.
Qed.

Lemma commit_after_clear_witness :
  exists messages_for_llm s1 response s2 s3,
    assemble_block "s1" "B" Scenario.after_first_turn = Some (messages_for_llm, s1)
    /\ clear_backend_history_route (Some "s1") s1 = Some (response, s2)
    /\ commit_exchange "s1" "B" "again" "ok" s2 = Some (tt, s3)
    /\ history (st_store s3) "s1"
       = [ {| d_role := SYSTEM; d_content := "B" |};
           {| d_role := USER; d_content := "again" |};
           {| d_role := ASSISTANT; d_content := "ok" |} ].
Proof.
  apply (commit_after_clear Scenario.after_first_turn "s1" "B" "again" "ok"
           after_first_turn_reachable eq_refl).
  discriminate.
Defined.

(** ** The wire format *)

Lemma chars_app a b : PyStr.chars (a +:+ b) = PyStr.chars a ++ PyStr.chars b.
Proof.
  induction a as [|x a IH]; [reflexivity|].
  change (x :: PyStr.chars (a +:+ b) = x :: (PyStr.chars a ++ PyStr.chars b)).
  rewrite IH. reflexivity.
Qed.

Lemma chars_inj a b : PyStr.chars a = PyStr.chars b -> a = b.
Proof.
  revert b. induction a as [|x a IH]; intros [|y b] H; try discriminate.
  - reflexivity.
  - simpl in H. injection H as -> H. rewrite (IH b H). reflexivity.
Qed.

Lemma string_app_inv_tail a b c : a +:+ c = b +:+ c -> a = b.
Proof.
  intros H. apply chars_inj. apply (f_equal PyStr.chars) in H.
  rewrite !chars_app in H. apply (app_inv_tail _ _ _ H).
Qed.

Lemma string_app_inv_head a b c : a +:+ b = a +:+ c -> b = c.
Proof.
  intros H. apply chars_inj. apply (f_equal PyStr.chars) in H.
  rewrite !chars_app in H. apply (app_inv_head _ _ _ H).
Qed.

Lemma escape_char_printable c :
  forallb printable (PyStr.chars (Json.escape_char c)) = true.
Proof.
  destruct c as [[] [] [] [] [] [] [] []]; vm_compute; reflexivity.
Qed.

Lemma escape_printable s :
  Forall (fun x => printable x = true) (PyStr.chars (Json.escape s)).
Proof.
  induction s as [|c s IH]; [constructor|].
  cbn [Json.escape]. rewrite chars_app. apply Forall_app.
  split; [|exact IH].
  apply Forall_forall. intros x Hx.
  pose proof (escape_char_printable c) as Hc.
  rewrite forallb_forall in Hc. apply Hc, list_elem_of_In, Hx.
Qed.

Lemma unescape_plain c t :
  Ascii.eqb c Json.backslash = false ->
  unescape (String c t)
  = match unescape t with
    | Some r => Some (String c r)
    | None => None
    end.
Proof. intros H. cbn [unescape]. rewrite H. reflexivity. Qed.

Lemma unescape_simple e c t :
  Ascii.eqb e "u" = false ->
  simple_escape e = Some c ->
  unescape (String Json.backslash (String e t))
  = match unescape t with
    | Some r => Some (String c r)
    | None => None
    end.
Proof.
  intros He Hs. cbn [unescape].
  change (Ascii.eqb Json.backslash Json.backslash) with true. cbv iota.
  rewrite He, Hs. reflexivity.
Qed.

Lemma unescape_u h1 h2 h3 h4 a b c d t :
  hex_value h1 = Some a -> hex_value h2 = Some b ->
  hex_value h3 = Some c -> hex_value h4 = Some d ->
  unescape (String Json.backslash (String "u"
              (String h1 (String h2 (String h3 (String h4 t))))))
  = match unescape t with
    | Some r => Some (String (ascii_of_nat (((a * 16 + b) * 16 + c) * 16 + d)) r)
    | None => None
    end.
Proof.
  intros H1 H2 H3 H4. cbn [unescape].
  change (Ascii.eqb Json.backslash Json.backslash) with true.
  change (Ascii.eqb "u" "u") with true. cbv iota.
  rewrite H1, H2, H3, H4. reflexivity.
Qed.

(** One case of [unescape_escape_char], for a character that is given. *)
Ltac unescape_case t :=
  match goal with
  | |- unescape (?e +:+ t) = _ =>
      let v := eval vm_compute in e in
      change e with v; cbv [String.append];
      first
        [ apply unescape_plain; reflexivity
        | apply unescape_simple; reflexivity
        | eapply eq_trans; [apply unescape_u; reflexivity | reflexivity] ]
  end.

Lemma unescape_escape_char c t :
  unescape (Json.escape_char c +:+ t)
  = match unescape t with
    | Some r => Some (String c r)
    | None => None
    end.
Proof.
  destruct c as [[] [] [] [] [] [] [] []]; unescape_case t.
Qed.

Lemma unescape_escape s : unescape (Json.escape s) = Some s.
Proof.
  induction s as [|c s IH]; [reflexivity|].
  cbn [Json.escape]. rewrite unescape_escape_char, IH. reflexivity.
Qed.

Lemma escape_inj a b : Json.escape a = Json.escape b -> a = b.
Proof.
  intros H. apply (f_equal unescape) in H. rewrite !unescape_escape in H.
  injection H as ->. reflexivity.
Qed.

Lemma forallb_printable_app a b :
  forallb printable (PyStr.chars (a +:+ b))
  = forallb printable (PyStr.chars a) && forallb printable (PyStr.chars b).
Proof. rewrite chars_app. apply forallb_app. Qed.

Lemma escape_printable_b s : forallb printable (PyStr.chars (Json.escape s)) = true.
Proof.
  apply forallb_forall. intros x Hx.
  pose proof (escape_printable s) as H. rewrite Forall_forall in H.
  apply H, list_elem_of_In, Hx.
Qed.

Lemma dumps_str_printable s :
  forallb printable (PyStr.chars (Json.dumps_str s)) = true.
Proof.
  unfold Json.dumps_str. cbn [PyStr.chars forallb].
  rewrite forallb_printable_app, escape_printable_b. reflexivity.
Qed.

Lemma dumps_dict_printable key text flag :
  forallb printable (PyStr.chars (Json.dumps_dict key text flag)) = true.
Proof.
  unfold Json.dumps_dict.
  rewrite !forallb_printable_app, !dumps_str_printable.
  destruct flag; reflexivity.
Qed.

(** X16.  Every string the generator yields is the prefix [data: ], a body
    made only of characters from the space to the tilde, and two newlines:
    whatever the text of the event (newlines, quotes, control characters),
    the body holds no newline, so that the frames of a stream are separated
    by their blank lines alone. *)
Theorem wire_frame_is_one_line (e : event) :
  PyStr.chars (wire e)
  = PyStr.chars "data: " ++ PyStr.chars (event_json e) ++ [Json.newline; Json.newline]
  /\ Forall (fun c => printable c = true) (PyStr.chars (event_json e))
  /\ Json.newline ∉ PyStr.chars (event_json e).
Proof.
  assert (Hp : Forall (fun c => printable c = true) (PyStr.chars (event_json e))).
  { apply Forall_forall. intros c Hc.
    assert (Hb : forallb printable (PyStr.chars (event_json e)) = true)
      by (destruct e; apply dumps_dict_printable).
    rewrite forallb_forall in Hb. apply Hb, list_elem_of_In, Hc. }
  split; [|split; [exact Hp|]].
  - unfold wire. rewrite !chars_app. reflexivity.
  - intros Hin. rewrite Forall_forall in Hp. specialize (Hp _ Hin). discriminate.
Qed.

(** The part of a serialized dict before the text, and the part after it. *)
Lemma dumps_dict_split key text flag :
  Json.dumps_dict key text flag
  = ("{" +:+ Json.dumps_str key +:+ ": " +:+ String Json.quote EmptyString)
    +:+ Json.escape text
    +:+ (String Json.quote EmptyString +:+ ", " +:+ Json.dumps_str "is_final"
         +:+ ": " +:+ (if flag then "true" else "false") +:+ "}").
Proof.
  unfold Json.dumps_dict. rewrite !string_app_assoc. do 3 f_equal.
  unfold Json.dumps_str at 1.
  change (String Json.quote (Json.escape text +:+ String Json.quote EmptyString))
    with (String Json.quote EmptyString
          +:+ (Json.escape text +:+ String Json.quote EmptyString)).
  rewrite !string_app_assoc. reflexivity.
Qed.

Lemma event_json_head e :
  exists rest,
    PyStr.chars (event_json e)
    = "{"%char :: Json.quote
      :: match e with
         | TextChunk _ => "t"%char
         | FullResponse _ => "f"%char
         | Error _ => "e"%char
         end :: rest.
Proof.
  destruct e; unfold event_json; rewrite dumps_dict_split, chars_app;
    eexists; reflexivity.
Qed.

(** X17.  On events whose texts hold only code points below 256, the
    alphabet of [string] here, the serialization loses nothing: two events
    that are yielded as the same string are the same event.  (Beyond that
    alphabet [json.dumps] writes a surrogate pair and the code point it
    encodes as the same escapes, and the property stops there.) *)
Theorem wire_is_injective (e1 e2 : event) :
  wire e1 = wire e2 -> e1 = e2.
Proof.
  intros H. unfold wire in H.
  apply string_app_inv_head, string_app_inv_tail in H.
  assert (Hsame : forall k f a b,
    Json.dumps_dict k a f = Json.dumps_dict k b f -> a = b).
  { intros k f a b Hd. rewrite !dumps_dict_split in Hd.
    apply string_app_inv_head, string_app_inv_tail, escape_inj in Hd. exact Hd. }
  destruct (event_json_head e1) as [r1 H1].
  destruct (event_json_head e2) as [r2 H2].
  pose proof (f_equal PyStr.chars H) as Hc. rewrite H1, H2 in Hc.
  destruct e1, e2; try discriminate Hc; simpl in H; f_equal;
    eapply Hsame; exact H.
Qed.

Lemma wire_is_injective_witness :
  wire (TextChunk "a") <> wire (FullResponse "a").
Proof.
  intros H.
  pose proof (wire_is_injective (TextChunk "a") (FullResponse "a") H) as E.
  discriminate E.
Defined.

(** ** The stripped system prompt *)

(** X18.  The system prompt the generator works with is the one of the
    payload without the whitespace around it: the payload's text is some
    whitespace, the stripped prompt, and some whitespace, and the stripped
    prompt, when not empty, neither starts nor ends with a whitespace
    character (the whitespace inside it is kept). *)
Theorem system_prompt_is_trimmed (payload : Payload) :
  let raw := default "" (p_system_prompt payload) in
  let sp := system_prompt_of payload in
  exists l r,
    raw = l +:+ sp +:+ r
    /\ all_space l /\ all_space r
    /\ match head (PyStr.chars sp), last (PyStr.chars sp) with
       | Some a, Some z => PyStr.is_space a = false /\ PyStr.is_space z = false
       | _, _ => sp = ""
       end.
Proof.
  intros raw sp. subst sp. unfold system_prompt_of, PyStr.strip. fold raw.
  destruct (lstrip_split raw) as (l & Hl & Hls).
  destruct (rstrip_split (PyStr.lstrip raw)) as (r & Hr & Hrs).
  exists l, r. split; [rewrite <- Hr; exact Hl|]. split; [exact Hls|]. split; [exact Hrs|].
  pose proof (lstrip_head raw) as Hh.
  pose proof (rstrip_last (PyStr.lstrip raw)) as Hlast.
  destruct (PyStr.lstrip raw) as [|c t] eqn:E; [reflexivity|].
  destruct (rstrip_keeps_head c t Hh) as [t' Ht]. rewrite Ht in *.
  cbn [PyStr.chars head].
  change (PyStr.chars (String c t')) with (c :: PyStr.chars t') in Hlast.
  destruct (last (c :: PyStr.chars t')) as [z|] eqn:El.
  - split; [exact Hh | exact Hlast].
  - apply last_None in El. discriminate El.
Qed.

(** ** Blank system prompts, and the stripped one in use *)

(** [s.strip()] is [s] without the whitespace at its two ends. *)
Lemma strip_trimmed raw :
  exists l r,
    raw = l +:+ PyStr.strip raw +:+ r
    /\ all_space l /\ all_space r
    /\ match head (PyStr.chars (PyStr.strip raw)),
             last (PyStr.chars (PyStr.strip raw)) with
       | Some a, Some z => PyStr.is_space a = false /\ PyStr.is_space z = false
       | _, _ => PyStr.strip raw = ""
       end.
Proof.
  unfold PyStr.strip.
  destruct (lstrip_split raw) as (l & Hl & Hls).
  destruct (rstrip_split (PyStr.lstrip raw)) as (r & Hr & Hrs).
  exists l, r. split; [rewrite <- Hr; exact Hl|]. split; [exact Hls|]. split; [exact Hrs|].
  pose proof (lstrip_head raw) as Hh.
  pose proof (rstrip_last (PyStr.lstrip raw)) as Hlast.
  destruct (PyStr.lstrip raw) as [|c t] eqn:E; [reflexivity|].
  destruct (rstrip_keeps_head c t Hh) as [t' Ht]. rewrite Ht in *.
  cbn [PyStr.chars head].
  change (PyStr.chars (String c t')) with (c :: PyStr.chars t') in Hlast.
  destruct (last (c :: PyStr.chars t')) as [z|] eqn:El.
  - split; [exact Hh | exact Hlast].
  - apply last_None in El. discriminate El.
Qed.

(** What a run that called the collaborator sent and stored, on the values
    of the transcript. *)
Lemma chat_route_post_called_values key groq payload (s : state) resp :
  reachable s ->
  let r := chat_route_post key groq payload s in
  response_of groq r = Some resp ->
  let t := history (st_store s) (session_of payload) in
  let sp := system_prompt_of payload in
  llm_call r
    = Some (model_of payload,
            assembled sp t ++ [{| role := USER; content := prompt_of payload |}],
            temperature_of payload)
  /\ exists s',
       final r = Some s'
       /\ history (st_store s') (session_of payload)
          = match ending resp with
            | Raised _ => overwritten_system sp t
            | Exhausted =>
                upsert_system sp t
                ++ [ {| d_role := USER; d_content := prompt_of payload |};
                     {| d_role := ASSISTANT;
                        d_content := PyStr.concat (delta_text <$> chunks resp) |} ]
            end.
Proof.
  intros Hr r Hresp t sp.
  destruct (chat_route_post_called key groq payload s resp Hr Hresp)
    as (_ & st0 & Hinv & Hh & Hst & Hrun).
  destruct (inv_assemble_messages st0 (session_of payload)
              (system_prompt_of payload) Hinv) as [Hwf1 Hsof1].
  destruct Hinv as [Hwf Hsof].
  assert (Hout : outgoing payload st0
                 = assembled sp t
                   ++ [{| role := USER; content := prompt_of payload |}]).
  { unfold outgoing. rewrite assemble_messages_list by apply Hsof.
    rewrite Hh. reflexivity. }
  subst r. rewrite Hrun. cbv zeta. rewrite Hout.
  destruct (ending resp) eqn:He; cbn [llm_call final];
    (split; [reflexivity|]); eexists; (split; [reflexivity|]);
    cbn [st_store unlocked]; unfold before_stream.
  - rewrite history_committed by (try apply Hsof1; exact Hwf1).
    rewrite assemble_messages_history by apply Hsof.
    rewrite upsert_overwritten, Hh, concat_emitted. reflexivity.
  - rewrite assemble_messages_history by apply Hsof. rewrite Hh. reflexivity.
Qed.

(** A run that made no call returns and leaves every transcript as it was. *)
Lemma chat_route_post_not_called key groq payload (s : state) :
  reachable s ->
  llm_call (chat_route_post key groq payload s) = None ->
  exists s',
    final (chat_route_post key groq payload s) = Some s'
    /\ forall sid, history (st_store s') sid = history (st_store s) sid.
Proof.
  intros Hr Hcall. destruct (accepted key groq payload) eqn:Ha.
  - destruct (chat_route_post_accepted key groq payload s Hr Ha)
      as (st0 & _ & _ & Hrun).
    rewrite Hrun in Hcall. cbv zeta in Hcall.
    destruct (ending (stream_of groq payload st0)); discriminate Hcall.
  - destruct (reachable_inv s Hr) as [st [-> _]].
    destruct (chat_route_post_entry key groq payload st)
      as (st0 & -> & _ & Hh & _).
    destruct (generate_not_accepted key groq payload (unlocked st0) Ha)
      as (evs & exn & ->).
    eexists. split; [reflexivity | exact Hh].
Qed.

(** C9.  The system prompt of a request is stripped before any use.  The
    prompt the generator works with is the supplied text without the
    whitespace at its two ends (the supplied text is some whitespace, that
    prompt, and some whitespace, and that prompt, when not empty, neither
    starts nor ends with whitespace), and nothing else of the supplied text
    is used: two requests that differ in the system prompt alone, with
    equal stripped values, run alike, and what a run that calls the
    collaborator sends and stores is built from the stripped prompt.  When
    the system prompt is absent, empty or made of whitespace only, the
    stripped prompt is empty; a run that calls the collaborator sends the
    stored transcript followed by the user message, with no system message
    added, and the stored messages stay as they were: after a run without
    call or with a failed stream the transcript is the one before the
    request, after a successful one it is that transcript followed by the
    user message and the assistant message. *)
Theorem blank_system_prompt_ignored key groq payload (s : state) :
  reachable s ->
  let r := chat_route_post key groq payload s in
  let raw := default "" (p_system_prompt payload) in
  let sp := system_prompt_of payload in
  let t := history (st_store s) (session_of payload) in
  let exchange resp :=
    [ {| d_role := USER; d_content := prompt_of payload |};
      {| d_role := ASSISTANT;
         d_content := PyStr.concat (delta_text <$> chunks resp) |} ] in
  (exists l r',
      raw = l +:+ sp +:+ r'
      /\ all_space l /\ all_space r'
      /\ match head (PyStr.chars sp), last (PyStr.chars sp) with
         | Some a, Some z => PyStr.is_space a = false /\ PyStr.is_space z = false
         | _, _ => sp = ""
         end)
  /\ (forall o o' s0,
        PyStr.strip (default "" o) = PyStr.strip (default "" o') ->
        chat_route_post key groq (with_system_prompt payload o) s0
        = chat_route_post key groq (with_system_prompt payload o') s0)
  /\ (forall resp,
        response_of groq r = Some resp ->
        llm_call r
          = Some (model_of payload,
                  assembled sp t
                  ++ [{| role := USER; content := prompt_of payload |}],
                  temperature_of payload)
        /\ exists s',
             final r = Some s'
             /\ history (st_store s') (session_of payload)
                = match ending resp with
                  | Raised _ => overwritten_system sp t
                  | Exhausted => upsert_system sp t ++ exchange resp
                  end)
  /\ (blank (p_system_prompt payload) ->
      sp = ""
      /\ (forall model_id messages_for_llm temperature,
            llm_call r = Some (model_id, messages_for_llm, temperature) ->
            messages_for_llm
            = (to_chat_message <$> t)
              ++ [{| role := USER; content := prompt_of payload |}])
      /\ exists s',
           final r = Some s'
           /\ history (st_store s') (session_of payload)
              = match response_of groq r with
                | None => t
                | Some resp =>
                    match ending resp with
                    | Raised _ => t
                    | Exhausted => t ++ exchange resp
                    end
                end).
Proof.
  intros Hr r raw sp t exchange.
  split; [apply strip_trimmed|].
  split; [intros o o' s0; apply chat_route_post_strip|].
  split; [intros resp Hresp;
          apply (chat_route_post_called_values key groq payload s resp Hr Hresp)|].
  intros Hb. apply system_prompt_of_blank in Hb. fold sp in Hb.
  split; [exact Hb|]. split.
  - intros model_id messages_for_llm temperature Hcall.
    assert (Hresp : response_of groq r
                    = Some (stream_chat groq model_id messages_for_llm temperature)).
    { unfold response_of. rewrite Hcall. reflexivity. }
    destruct (chat_route_post_called_values key groq payload s _ Hr Hresp)
      as [Hsent _].
    fold r sp t in Hsent. rewrite Hcall, Hb in Hsent.
    injection Hsent as _ -> _. reflexivity.
  - destruct (response_of groq r) as [resp|] eqn:Hresp.
    + destruct (chat_route_post_called_values key groq payload s resp Hr Hresp)
        as (_ & s' & Hf & Hh).
      exists s'. split; [exact Hf|]. rewrite Hh. fold sp t. rewrite Hb.
      destruct (ending resp); reflexivity.
    + assert (Hcall : llm_call r = None).
      { unfold response_of in Hresp.
        destruct (llm_call r) as [[[m l] q]|]; [discriminate Hresp | reflexivity]. }
      destruct (chat_route_post_not_called key groq payload s Hr Hcall)
        as (s' & Hf & Hh).
      exists s'. split; [exact Hf | apply Hh].
Qed.

Lemma blank_system_prompt_ignored_witness :
  let groq := Scenario.stub [Some "ok"] Exhausted in
  let payload := Scenario.request (Some "s1") (Some "again") (Some "   ") in
  let r := chat_route_post Scenario.api_key groq payload Scenario.after_first_turn in
  system_prompt_of payload = ""
  /\ llm_call r
     = Some ("llama3-8b-8192",
             [ {| role := SYSTEM; content := "A" |};
               {| role := USER; content := "hi" |};
               {| role := ASSISTANT; content := "Hello" |};
               {| role := USER; content := "again" |} ],
             default_temperature)
  /\ exists s',
       final r = Some s'
       /\ history (st_store s') "s1"
          = [ {| d_role := SYSTEM; d_content := "A" |};
              {| d_role := USER; d_content := "hi" |};
              {| d_role := ASSISTANT; d_content := "Hello" |};
              {| d_role := USER; d_content := "again" |};
              {| d_role := ASSISTANT; d_content := "ok" |} ].
Proof.
  intros groq payload r.
  destruct (blank_system_prompt_ignored Scenario.api_key groq payload
              Scenario.after_first_turn after_first_turn_reachable)
    as (_ & _ & _ & Hblank).
  destruct (Hblank ltac:(repeat constructor)) as (Hsp & _ & Hstored).
  split; [exact Hsp|]. split; [vm_compute; reflexivity | exact Hstored].
Defined.
